(** * Agentic Regulatory Review Workbench: the workspace handlers of
    [src/index.tsx], embedded over an explicit JavaScript object store.

    The React component keeps one [workspace] state value whose arrays hold
    references to objects (agent definitions, their [params] objects, run-log
    entries).  Handlers copy arrays with a spread and then assign to
    properties of the referenced objects, so the objects live in a store
    ([heap]) and the arrays are lists of locations into it.

    Conventions of the embedding:
    - a handler is a function of the state it finds (the state of the last
      render) and, where it awaits the outside world, of a description of
      what the world answers; [handleRunChain] and the sessions take a run
      of the chain whole, with no other handler interleaved, and the part
      on runs await by await takes it from one [await] to the next, with
      other handlers called in between;
    - objects have own data properties only, so the name [__proto__] is
      outside the model;
    - a JavaScript string is a [string], one character per UTF-16 code unit,
      so that [String.length] is [.length]; numbers that count are in [Z],
      times and latencies are binary64 [float]s;
    - thrown values are Error objects, of which the [message] is kept;
    - the transient OCR status line, [console.error], the JSON text of the
      export and the rendering are left out. *)

From Stdlib Require Import PrimFloat FloatOps ZArith Ascii DecimalString.
From stdpp Require Import gmap strings list.

Set Warnings "-inexact-float".
Local Open Scope string_scope.
Local Open Scope Z_scope.
Local Open Scope list_scope.

(** ** JavaScript values, objects and the store *)

Definition loc := nat.

(** The values this program stores in object properties: [undefined],
    strings, numbers (binary64) and references to objects. *)
Inductive val :=
| VUndefined
| VStr (s : string)
| VNum (x : float)
| VRef (l : loc).

(** An object is its own data properties; the store is indexed by location
    and only ever grows at its end. *)
Abbreviation obj := (gmap string val).

Record JsError := { err_name : string; message : string }.

Definition TypeError (msg : string) : JsError :=
  {| err_name := "TypeError"; message := msg |}.

(** Completion of an expression: a value or a thrown error. *)
Inductive res (A : Type) :=
| Ok (a : A)
| Err (e : JsError).
Arguments Ok {A} a.
Arguments Err {A} e.

Definition res_bind {A B} (m : res A) (f : A → res B) : res B :=
  match m with
  | Ok a => f a
  | Err e => Err e
  end.

Notation "x ←! m ; k" := (res_bind m (λ x, k))
  (at level 20, m at level 100, k at level 200, right associativity,
   format "x  ←!  m ;  '/' k").

Definition deref (h : list obj) (l : loc) : obj := default ∅ (h !! l).

Definition alloc (o : obj) (h : list obj) : loc * list obj :=
  (List.length h, h ++ [o]).

(** [v.key]: reading through [undefined] throws; a primitive has none of the
    properties this program reads (they are not members of a built-in
    prototype), so the read gives [undefined]. *)
Definition get_prop (h : list obj) (v : val) (key : string) : res val :=
  match v with
  | VUndefined =>
      Err (TypeError ("Cannot read properties of undefined (reading '" +:+ key +:+ "')"))
  | VRef l => Ok (default VUndefined (deref h l !! key))
  | VStr _ | VNum _ => Ok VUndefined
  end.

(** [v.key = x] in strict-mode code (the file is an ES module): assignment
    through [undefined] or to a primitive throws; on an object it writes the
    property in place, for every holder of the reference to see.

    Two limits of this model.  Objects have own data properties only: the
    name [__proto__], which [Object.prototype] defines as an accessor, is
    written like any other name here, whereas the engine hands the value to
    that accessor and creates no property; statements that read back a
    written key exclude it.  And of the engine's message for a primitive
    base only the part before the value is kept (the engine goes on with
    the value in quotes); no statement depends on that text. *)
Definition set_prop (h : list obj) (v : val) (key : string) (x : val) : res (list obj) :=
  match v with
  | VUndefined =>
      Err (TypeError ("Cannot set properties of undefined (setting '" +:+ key +:+ "')"))
  | VRef l => Ok (<[l := <[key := x]> (deref h l)]> h)
  | VStr _ => Err (TypeError ("Cannot create property '" +:+ key +:+ "' on string"))
  | VNum _ => Err (TypeError ("Cannot create property '" +:+ key +:+ "' on number"))
  end.

(** [arr[index]] on an array of object references: [undefined] outside the
    array. *)
Definition array_get (arr : list loc) (index : Z) : val :=
  if decide (0 ≤ index) then
    match arr !! Z.to_nat index with
    | Some l => VRef l
    | None => VUndefined
    end
  else VUndefined.

(** ** Strings *)

Definition startsWith (prefix s : string) : bool := String.prefix prefix s.

(** [s.split(sep)] for a one-character separator. *)
Fixpoint split_go (sep : ascii) (s : string) (cur : string) : list string :=
  match s with
  | EmptyString => [cur]
  | String c s' =>
      if Ascii.eqb c sep then cur :: split_go sep s' ""
      else split_go sep s' (cur +:+ String c "")
  end.

Definition split (sep : ascii) (s : string) : list string := split_go sep s "".

(** [s.substring(start, end)]: both indices are clamped to [0, s.length] and
    swapped when out of order. *)
Definition substring (s : string) (start end_ : Z) : string :=
  let len := Z.of_nat (String.length s) in
  let a := Z.min (Z.max start 0) len in
  let b := Z.min (Z.max end_ 0) len in
  let lo := Z.min a b in
  let hi := Z.max a b in
  String.substring (Z.to_nat lo) (Z.to_nat (hi - lo)) s.

Definition nl : string := String "010" "".

(** ** Numbers *)

(** Decimal digits of a non-negative integer. *)
Definition digits (n : Z) : string :=
  NilZero.string_of_uint (N.to_uint (Z.to_N n)).

Fixpoint zeros (k : nat) : string :=
  match k with
  | O => ""
  | S k' => String "0" (zeros k')
  end.

(** The integer [n] for which [n / 100 - m * 2^e] is closest to zero, the
    larger one when two are equally close. *)
Definition nearest_hundredths (m : positive) (e : Z) : Z :=
  if decide (0 ≤ e) then Z.pos m * 100 * 2 ^ e
  else (2 * (Z.pos m * 100) + 2 ^ (- e)) / (2 * 2 ^ (- e)).

(** [m * 2^e >= 10^21] *)
Definition at_least_1e21 (m : positive) (e : Z) : bool :=
  if decide (0 ≤ e) then 10 ^ 21 <=? Z.pos m * 2 ^ e
  else 10 ^ 21 * 2 ^ (- e) <=? Z.pos m.

(** Steps 8-10 of Number.prototype.toFixed for two fraction digits: the
    digits of [n], left-padded with zeros to three, with a point before the
    last two. *)
Definition fixed_point2 (n : Z) : string :=
  let m := digits n in
  let k := String.length m in
  let m := if decide (k ≤ 2)%nat then zeros (3 - k) +:+ m else m in
  let k := String.length m in
  String.substring 0 (k - 2) m +:+ "." +:+ String.substring (k - 2) 2 m.

(** [x.toFixed(2)].  [number_toString] is the engine's Number::toString,
    which toFixed defers to for magnitudes of at least 10^21. *)
Definition toFixed2 (number_toString : float → string) (x : float) : string :=
  match Prim2SF x with
  | SpecFloat.S754_nan => "NaN"
  | SpecFloat.S754_infinity s => if s then "-Infinity" else "Infinity"
  | SpecFloat.S754_zero _ => "0.00"
  | SpecFloat.S754_finite s m e =>
      (if s then "-" else "") +:+
      (if at_least_1e21 m e then number_toString (abs x)
       else fixed_point2 (nearest_hundredths m e))
  end.

(** ** The workspace *)

(** The payload of one [ai.models.generateContent] call; [agentConfig]
    properties are passed on as read, whatever they hold. *)
Record Request := {
  req_model : val;
  req_text : string;
  req_systemInstruction : val;
  req_temperature : val;
  req_maxOutputTokens : val;
}.

Record Metrics := {
  ocr_pages : Z;
  chars : Z;
  agents_run : Z;
  latency : float;
}.

Record Workspace := {
  rawText : string;
  agents : list loc;
  agentsRunConfig : list loc;
  runLog : list loc;
  metrics : Metrics;
  isRunning : bool;
  error : option string;
}.

Inductive Tab := TabIngestion | TabAgents | TabRunChain | TabDashboard.

(** What [downloadResults] serialises. *)
Record ChainItem := { agent : val; item_model : val; output : val }.

Record ExportData := {
  guidance_excerpt : string;
  chain : list ChainItem;
  export_metrics : Metrics;
}.

Record Download := { download : string; exportData : ExportData }.

(** The component's state together with the store its arrays point into, and
    two records of what left the component: the generateContent calls issued
    and the files offered for download. *)
Record State := {
  heap : list obj;
  workspace : Workspace;
  activeTab : Tab;
  requests : list Request;
  downloads : list Download;
}.

(** Object spread with one property replaced: [{...p, runLog: x}] and the
    like. *)
Definition with_rawText (x : string) (p : Workspace) : Workspace :=
  {| rawText := x; agents := agents p; agentsRunConfig := agentsRunConfig p;
     runLog := runLog p; metrics := metrics p; isRunning := isRunning p;
     error := error p |}.

Definition with_agentsRunConfig (x : list loc) (p : Workspace) : Workspace :=
  {| rawText := rawText p; agents := agents p; agentsRunConfig := x;
     runLog := runLog p; metrics := metrics p; isRunning := isRunning p;
     error := error p |}.

Definition with_runLog (x : list loc) (p : Workspace) : Workspace :=
  {| rawText := rawText p; agents := agents p;
     agentsRunConfig := agentsRunConfig p; runLog := x; metrics := metrics p;
     isRunning := isRunning p; error := error p |}.

Definition with_metrics (x : Metrics) (p : Workspace) : Workspace :=
  {| rawText := rawText p; agents := agents p;
     agentsRunConfig := agentsRunConfig p; runLog := runLog p; metrics := x;
     isRunning := isRunning p; error := error p |}.

Definition with_isRunning (x : bool) (p : Workspace) : Workspace :=
  {| rawText := rawText p; agents := agents p;
     agentsRunConfig := agentsRunConfig p; runLog := runLog p;
     metrics := metrics p; isRunning := x; error := error p |}.

Definition with_error (x : option string) (p : Workspace) : Workspace :=
  {| rawText := rawText p; agents := agents p;
     agentsRunConfig := agentsRunConfig p; runLog := runLog p;
     metrics := metrics p; isRunning := isRunning p; error := x |}.

Definition with_ocr_pages (x : Z) (m : Metrics) : Metrics :=
  {| ocr_pages := x; chars := chars m; agents_run := agents_run m;
     latency := latency m |}.

Definition with_chars (x : Z) (m : Metrics) : Metrics :=
  {| ocr_pages := ocr_pages m; chars := x; agents_run := agents_run m;
     latency := latency m |}.

Definition with_agents_run (x : Z) (m : Metrics) : Metrics :=
  {| ocr_pages := ocr_pages m; chars := chars m; agents_run := x;
     latency := latency m |}.

Definition with_latency (x : float) (m : Metrics) : Metrics :=
  {| ocr_pages := ocr_pages m; chars := chars m; agents_run := agents_run m;
     latency := x |}.

(** [setWorkspace(p => f(p))] *)
Definition setWorkspace (f : Workspace → Workspace) (σ : State) : State :=
  {| heap := heap σ; workspace := f (workspace σ); activeTab := activeTab σ;
     requests := requests σ; downloads := downloads σ |}.

Definition setActiveTab (t : Tab) (σ : State) : State :=
  {| heap := heap σ; workspace := workspace σ; activeTab := t;
     requests := requests σ; downloads := downloads σ |}.

Definition with_heap (h : list obj) (σ : State) : State :=
  {| heap := h; workspace := workspace σ; activeTab := activeTab σ;
     requests := requests σ; downloads := downloads σ |}.

Definition issue (r : Request) (σ : State) : State :=
  {| heap := heap σ; workspace := workspace σ; activeTab := activeTab σ;
     requests := requests σ ++ [r]; downloads := downloads σ |}.

Definition offer (d : Download) (σ : State) : State :=
  {| heap := heap σ; workspace := workspace σ; activeTab := activeTab σ;
     requests := requests σ; downloads := downloads σ ++ [d] |}.

(** A handler either returns or lets an error escape; either way it leaves a
    state behind. *)
Inductive Outcome :=
| Done (σ : State)
| Threw (e : JsError) (σ : State).

Definition state_of (o : Outcome) : State :=
  match o with
  | Done σ => σ
  | Threw _ σ => σ
  end.

(** ** Agent Registry and Handoff Editor *)

(** [handleRunConfigChange(index, field, value)] *)
Definition handleRunConfigChange (index : Z) (field : string) (value : val)
    (σ : State) : Outcome :=
  let newConfig := agentsRunConfig (workspace σ) in
  let assigned :=
    if startsWith "params." field then
      let paramKey := default "undefined" (split "." field !! 1%nat) in
      params ←! get_prop (heap σ) (array_get newConfig index) "params";
      set_prop (heap σ) params paramKey value
    else set_prop (heap σ) (array_get newConfig index) field value in
  match assigned with
  | Err e => Threw e σ
  | Ok h =>
      Done (setWorkspace (λ p, with_agentsRunConfig newConfig p) (with_heap h σ))
  end.

(** [handleHandoffEdit(index, newOutput)] *)
Definition handleHandoffEdit (index : Z) (newOutput : val) (σ : State) : Outcome :=
  let newRunLog := runLog (workspace σ) in
  match set_prop (heap σ) (array_get newRunLog index) "output" newOutput with
  | Err e => Threw e σ
  | Ok h =>
      Done (setWorkspace (λ p, with_runLog newRunLog p) (with_heap h σ))
  end.

(** ** Chain Executor *)

(** How the promise of one [generateContent] call settles: with a response,
    whose [text] may be absent, or with an error object.  (A rejection with
    a value that is no error object, for which [e.message] is [undefined],
    is not modelled.) *)
Inductive Response :=
| Resolved (text : option string)
| Rejected (e : JsError).

(** What one loop iteration observes of its surroundings: the clock before
    the call, the settlement of the generateContent promise, and the clock
    after it (read only when the promise resolved). *)
Record Call := {
  startTime : float;
  response : Response;
  endTime : float;
}.

(** The surroundings of one run: whether constructing the client throws, the
    k-th call's observations, and the engine's Number::toString. *)
Record RunEnv := {
  client : res unit;
  calls : nat → Call;
  number_toString : float → string;
}.

(** The [let]-bound variables of [handleRunChain], shared by the [try] body
    and the [finally] block. *)
Record RunLocals := {
  currentInput : string;
  totalLatency : float;
  newRunLog : list loc;
}.

Inductive Completion :=
| Finished
| Raised (e : JsError).

(** The argument of [generateContent], its property reads in source order. *)
Definition build_request (h : list obj) (agentConfig : loc) (input : string)
    : res Request :=
  model ←! get_prop h (VRef agentConfig) "model";
  systemInstruction ←! get_prop h (VRef agentConfig) "system_prompt";
  params ←! get_prop h (VRef agentConfig) "params";
  temperature ←! get_prop h params "temperature";
  params' ←! get_prop h (VRef agentConfig) "params";
  maxOutputTokens ←! get_prop h params' "maxOutputTokens";
  Ok {| req_model := model; req_text := input;
        req_systemInstruction := systemInstruction;
        req_temperature := temperature;
        req_maxOutputTokens := maxOutputTokens |}.

(** [o.key] for the object at [l]. *)
Definition prop (h : list obj) (l : loc) (key : string) : val :=
  default VUndefined (deref h l !! key).

(** Seconds between the two clock readings of a call. *)
Definition call_latency (call : Call) : float :=
  ((endTime call - startTime call) / 1000)%float.

(** [response.text ?? ''] *)
Definition call_output (text : option string) : string := default "" text.

(** The [logEntry] object literal. *)
Definition logEntry (env : RunEnv) (h : list obj) (agentConfig : loc)
    (outputText : string) (latency : float) : obj :=
  <["latency" := VStr (toFixed2 (number_toString env) latency)]>
  (<["output" := VStr outputText]>
  (<["model" := prop h agentConfig "model"]>
  (<["agentName" := prop h agentConfig "name"]> ∅))).

(** The rest of an iteration once its call has resolved with [text]: account
    for the latency, build the log entry, push it, publish a copy of the log
    and hand the output to the next iteration. *)
Definition record_step (env : RunEnv) (agentConfig : loc) (call : Call)
    (text : option string) (v : RunLocals) (σ : State) : RunLocals * State :=
  let latency := call_latency call in
  let totalLatency' := (totalLatency v + latency)%float in
  let outputText := call_output text in
  let '(l, h) :=
    alloc (logEntry env (heap σ) agentConfig outputText latency) (heap σ) in
  let newRunLog' := newRunLog v ++ [l] in
  let σ := setWorkspace (λ prev, with_runLog newRunLog' prev) (with_heap h σ) in
  ({| currentInput := outputText; totalLatency := totalLatency';
      newRunLog := newRunLog' |}, σ).

(** The loop [for (const agentConfig of workspace.agentsRunConfig)]; the
    iteration that finds [k] entries in [newRunLog] makes the run's k-th
    call.  A throw leaves the loop with the locals as they are. *)
Fixpoint for_of_agents (env : RunEnv) (configs : list loc) (v : RunLocals)
    (σ : State) : Completion * RunLocals * State :=
  match configs with
  | [] => (Finished, v, σ)
  | agentConfig :: rest =>
      let call := calls env (List.length (newRunLog v)) in
      match build_request (heap σ) agentConfig (currentInput v) with
      | Err e => (Raised e, v, σ)
      | Ok request =>
          let σ := issue request σ in
          match response call with
          | Rejected e => (Raised e, v, σ)
          | Resolved text =>
              let '(v, σ) := record_step env agentConfig call text v σ in
              for_of_agents env rest v σ
          end
      end
  end.

(** [handleRunChain(baseInput)]: entry actions, the [try] body, [catch] and
    [finally]. *)
Definition handleRunChain (env : RunEnv) (baseInput : string) (σ : State) : State :=
  let configs := agentsRunConfig (workspace σ) in
  let σ := setWorkspace (λ prev,
    with_runLog [] (with_error None (with_isRunning true prev))) σ in
  let v0 := {| currentInput := baseInput; totalLatency := 0; newRunLog := [] |} in
  let '(c, v, σ) :=
    match client env with
    | Err e => (Raised e, v0, σ)
    | Ok _ => for_of_agents env configs v0 σ
    end in
  let σ :=
    match c with
    | Raised e => setWorkspace (λ prev, with_error (Some (message e)) prev) σ
    | Finished => σ
    end in
  setWorkspace (λ prev,
    with_metrics
      (with_latency (totalLatency v)
        (with_agents_run (Z.of_nat (List.length (newRunLog v))) (metrics prev)))
      (with_isRunning false prev)) σ.

(** ** Document Ingestion *)

Inductive PageOcr :=
| Recognized (text : string)
| PageFailed (e : JsError).

(** A parsed PDF: its page count and, per page number, how rendering and
    recognition of that page settle. *)
Record PdfDocument := {
  numPages : nat;
  recognize : nat → PageOcr;
}.

(** An uploaded file as the platform presents it: its MIME type, what
    [readAsText] loads (nothing when the load event never fires), and how
    [pdfjsLib.getDocument] settles on its bytes. *)
Record File := {
  file_type : string;
  readAsText : option string;
  getDocument : res PdfDocument;
}.

(** [for (let i = 1; i <= pdf.numPages; i++)], with [remaining] pages still
    to visit from page [i] on. *)
Fixpoint ocr_loop (pdf : PdfDocument) (remaining i : nat) (fullText : string)
    : res string :=
  match remaining with
  | O => Ok fullText
  | S remaining' =>
      match recognize pdf i with
      | PageFailed e => Err e
      | Recognized text =>
          ocr_loop pdf remaining' (S i) (fullText +:+ (text +:+ nl +:+ nl))
      end
  end.

Definition js_length (s : string) : Z := Z.of_nat (String.length s).

(** [handlePdfUpload(file)]; a rejection inside the load callback is not
    caught, and then no state update is reached. *)
Definition handlePdfUpload (file : File) (σ : State) : Outcome :=
  match getDocument file with
  | Err e => Threw e σ
  | Ok pdf =>
      match ocr_loop pdf (numPages pdf) 1 "" with
      | Err e => Threw e σ
      | Ok fullText =>
          Done (setActiveTab TabAgents (setWorkspace (λ p,
            with_metrics
              (with_ocr_pages (Z.of_nat (numPages pdf))
                (with_chars (js_length fullText) (metrics p)))
              (with_rawText fullText p)) σ))
      end
  end.

(** [handleFileChange(e)], with [file] standing for [e.target.files[0]]. *)
Definition handleFileChange (file : option File) (σ : State) : Outcome :=
  match file with
  | None => Done σ
  | Some file =>
      if String.eqb (file_type file) "application/pdf" then handlePdfUpload file σ
      else
        match readAsText file with
        | None => Done σ
        | Some text =>
            Done (setActiveTab TabAgents (setWorkspace (λ p,
              with_metrics
                (with_ocr_pages 0 (with_chars (js_length text) (metrics p)))
                (with_rawText text p)) σ))
        end
  end.

(** [handleRawTextChange(newText)] *)
Definition handleRawTextChange (newText : string) (σ : State) : State :=
  let oldText := rawText (workspace σ) in
  let σ' := setWorkspace (λ p,
    with_metrics (with_chars (js_length newText) (metrics p))
      (with_rawText newText p)) σ in
  match activeTab σ with
  | TabIngestion =>
      if 200 <? js_length newText - js_length oldText
      then setActiveTab TabAgents σ' else σ'
  | _ => σ'
  end.

(** ** Export *)

(** [downloadResults()] *)
Definition downloadResults (σ : State) : State :=
  let exportData :=
    {| guidance_excerpt := substring (rawText (workspace σ)) 0 1000;
       chain := List.map (λ l,
         {| agent := prop (heap σ) l "agentName";
            item_model := prop (heap σ) l "model";
            output := prop (heap σ) l "output" |}) (runLog (workspace σ));
       export_metrics := metrics (workspace σ) |} in
  offer {| download := "agent_chain_results.json"; exportData := exportData |} σ.

(** ** Dashboard *)

(** The [score] variable of [TabDashboard] after its three [if] statements. *)
Definition completion_score (m : Metrics) : Z :=
  let score := 0 in
  let score := if (0 <? ocr_pages m) || (1000 <? chars m) then score + 1 else score in
  let score := if 2 <=? agents_run m then score + 1 else score in
  let score := if (5000 <? chars m) && (4 <=? agents_run m) then score + 1 else score in
  score.

Record Status := { label : string; color : string }.

Definition statusMap (score : Z) : option Status :=
  match score with
  | 0 => Some {| label := "Getting Started"; color := "var(--warning-color)" |}
  | 1 => Some {| label := "Warming Up"; color := "#f59e0b" |}
  | 2 => Some {| label := "On Track"; color := "var(--success-color)" |}
  | 3 => Some {| label := "Wow! Pro Level"; color := "var(--primary-color)" |}
  | _ => None
  end.

(** ** The initial state *)

Section Initial.
(** The two long text constants of the component; their content plays no
    part below. *)
Variable REGULATORY_ORCHESTRATOR_PROMPT : string.
Variable initialGuidanceText : string.

Definition params_object (temperature maxOutputTokens : float) : obj :=
  <["maxOutputTokens" := VNum maxOutputTokens]>
  (<["temperature" := VNum temperature]> ∅).

Definition agent_object (name description model : string) (params : loc)
    (role : string) : obj :=
  <["system_prompt" := VStr (REGULATORY_ORCHESTRATOR_PROMPT +:+ nl +:+ role)]>
  (<["params" := VRef params]>
  (<["model" := VStr model]>
  (<["description" := VStr description]>
  (<["name" := VStr name]> ∅)))).

(** The objects of the [initialAgents] literal: agent [i] at location
    [2 * i], its [params] object next to it. *)
Definition initial_heap : list obj := [
  agent_object "RequirementExtractor"
    "Extracts structured requirements from the guidance."
    "gemini-2.5-flash" 1%nat
    ("ROLE: Requirement Extractor." +:+ nl +:+
     "TASK: Extract all explicit and implicit requirements from the provided guidance into a clean, deduplicated list with unique IDs." +:+ nl +:+
     "OUTPUT: JSON with fields: items[{id, title, requirement, category, references, priority}]." +:+ nl +:+
     "STYLE: concise, complete, bilingual labels if possible (Traditional Chinese and English).");
  params_object 0.2 2000;
  agent_object "GapAnalyzer"
    "Compares provided dossier/evidence against extracted requirements to find gaps."
    "gemini-2.5-pro" 3%nat
    ("ROLE: Gap Analyzer." +:+ nl +:+
     "INPUTS: requirements JSON and dossier/evidence text." +:+ nl +:+
     "TASK: For each requirement, classify coverage (Covered/Partial/Missing), cite evidence snippets, and list missing evidence." +:+ nl +:+
     "OUTPUT: JSON with fields: coverage[{req_id, status, evidence_snippets[], missing_evidence[], risk_level, remediation_suggestions[]}].");
  params_object 0.2 2000;
  agent_object "EvidenceMapper"
    "Maps documents/pages to requirements with traceability links."
    "gemini-2.5-flash" 5%nat
    ("ROLE: Evidence Mapper." +:+ nl +:+
     "TASK: Build a bidirectional traceability matrix between requirements and provided document sections/pages." +:+ nl +:+
     "OUTPUT: JSON with fields: trace[{req_id, doc_id, page, snippet, confidence}].");
  params_object 0.2 1800;
  agent_object "ChecklistFormatter"
    "Produces a reviewer-ready checklist and summary."
    "gemini-2.5-flash" 7%nat
    ("ROLE: Checklist Formatter." +:+ nl +:+
     "TASK: Generate a final checklist table and executive summary (TC/EN bilingual section headers)." +:+ nl +:+
     "OUTPUT: JSON {summary, checklist_markdown, key_risks[], next_actions[], glossary[]} and Markdown preview.");
  params_object 0.1 2200
].

Definition initialAgents : list loc := [0%nat; 2%nat; 4%nat; 6%nat].

(** [useState({...})]: [agents] and [agentsRunConfig] are both
    [initialAgents], one array of four references. *)
Definition initial_workspace : Workspace :=
  {| rawText := initialGuidanceText;
     agents := initialAgents;
     agentsRunConfig := initialAgents;
     runLog := [];
     metrics := {| ocr_pages := 0; chars := js_length initialGuidanceText;
                   agents_run := 0; latency := 0 |};
     isRunning := false;
     error := None |}.

Definition initial_state : State :=
  {| heap := initial_heap; workspace := initial_workspace;
     activeTab := TabIngestion; requests := []; downloads := [] |}.
End Initial.

(** ** Sessions: the states between runs

    A session takes each run as one event, with no other handler called
    while its calls are awaited; what is published during a run is the
    matter of the part on runs await by await. *)

Inductive Event :=
| RunChain (env : RunEnv) (baseInput : string)
| RunConfigChange (index : Z) (field : string) (value : val)
| HandoffEdit (index : Z) (newOutput : val)
| FileChange (file : option File)
| RawTextChange (newText : string)
| DownloadResults
| SelectTab (t : Tab).

Definition handle (ev : Event) (σ : State) : State :=
  match ev with
  | RunChain env baseInput => handleRunChain env baseInput σ
  | RunConfigChange index field value =>
      state_of (handleRunConfigChange index field value σ)
  | HandoffEdit index newOutput => state_of (handleHandoffEdit index newOutput σ)
  | FileChange file => state_of (handleFileChange file σ)
  | RawTextChange newText => handleRawTextChange newText σ
  | DownloadResults => downloadResults σ
  | SelectTab t => setActiveTab t σ
  end.

(** The state after a session's events, oldest first. *)
Definition session (prompt guidance : string) (evs : list Event) : State :=
  foldl (λ σ ev, handle ev σ) (initial_state prompt guidance) evs.

(** ** The page

    The four tabs: which controls exist, and what they call. *)

#[global] Instance Tab_eq_dec : EqDecision Tab.
Proof. solve_decision. Defined.

(** The two [option]s of the model [select]. *)
Inductive ModelOption := Flash | Pro.

Definition option_value (o : ModelOption) : string :=
  match o with
  | Flash => "gemini-2.5-flash"
  | Pro => "gemini-2.5-pro"
  end.

(** The controls of the page with the value an event on them carries: for
    the range and number inputs, the number that [parseFloat] and [parseInt]
    make of the input's text; for the run button, the text of the
    initial-input textarea and what the run will meet. *)
Inductive Control :=
| NavButton (t : Tab)
| FileInput (file : option File)
| GuidanceTextarea (newText : string)
| ModelSelect (index : nat) (o : ModelOption)
| TemperatureRange (index : nat) (value : float)
| MaxTokensInput (index : nat) (value : float)
| SystemPromptTextarea (index : nat) (value : string)
| RunButton (env : RunEnv) (initialInput : string)
| OutputTextarea (index : nat) (value : string)
| DownloadButton.

(** [renderActiveTab] and the tab components: a control takes events when
    its tab is the active one, its card or log entry exists
    ([agentsRunConfig.map], [runLog.map]) and it is not disabled or
    conditioned away. *)
Definition rendered (σ : State) (c : Control) : bool :=
  match c with
  | NavButton _ => true
  | FileInput _ | GuidanceTextarea _ => bool_decide (activeTab σ = TabIngestion)
  | ModelSelect index _ | TemperatureRange index _ | MaxTokensInput index _
  | SystemPromptTextarea index _ =>
      bool_decide (activeTab σ = TabAgents)
      && bool_decide (index < List.length (agentsRunConfig (workspace σ)))%nat
  | RunButton _ _ =>
      bool_decide (activeTab σ = TabRunChain) && negb (isRunning (workspace σ))
  | OutputTextarea index _ =>
      bool_decide (activeTab σ = TabRunChain)
      && bool_decide (index < List.length (runLog (workspace σ)))%nat
  | DownloadButton =>
      bool_decide (activeTab σ = TabRunChain)
      && bool_decide (0 < List.length (runLog (workspace σ)))%nat
      && negb (isRunning (workspace σ))
  end.

(** The handler each control is bound to, with the arguments it passes. *)
Definition operate (c : Control) (σ : State) : Outcome :=
  match c with
  | NavButton t => Done (setActiveTab t σ)
  | FileInput file => handleFileChange file σ
  | GuidanceTextarea newText => Done (handleRawTextChange newText σ)
  | ModelSelect index o =>
      handleRunConfigChange (Z.of_nat index) "model" (VStr (option_value o)) σ
  | TemperatureRange index value =>
      handleRunConfigChange (Z.of_nat index) "params.temperature" (VNum value) σ
  | MaxTokensInput index value =>
      handleRunConfigChange (Z.of_nat index) "params.maxOutputTokens" (VNum value) σ
  | SystemPromptTextarea index value =>
      handleRunConfigChange (Z.of_nat index) "system_prompt" (VStr value) σ
  | RunButton env initialInput => Done (handleRunChain env initialInput σ)
  | OutputTextarea index value => handleHandoffEdit (Z.of_nat index) (VStr value) σ
  | DownloadButton => Done (downloadResults σ)
  end.

(** An event on a control; a control that is not on the page takes none. *)
Definition click (c : Control) (σ : State) : Outcome :=
  if rendered σ c then operate c σ else Done σ.

(** The state after a sequence of events on the page, oldest first. *)
Definition ui_session (prompt guidance : string) (cs : list Control) : State :=
  foldl (λ σ c, state_of (click c σ)) (initial_state prompt guidance) cs.

(** * Vocabulary of the properties

    Predicates on states, closed forms of what the loops compute, the
    specification's own wording where it is compared with the code, and the
    concrete inputs used below. *)

(** ** States

    The run log of a state is well formed when its entries are distinct
    objects of the store. *)
Definition runLog_wf (σ : State) : Prop :=
  NoDup (runLog (workspace σ)) ∧
  Forall (λ l, (l < List.length (heap σ))%nat) (runLog (workspace σ)).

(** [metrics.chars == rawText.length] *)
Definition chars_invariant (σ : State) : Prop :=
  chars (metrics (workspace σ)) = js_length (rawText (workspace σ)).

(** What holds in every state of a session: [chars] is the length of
    [rawText], the run log is well formed, and the base list and the run
    configuration are one and the same list of references. *)
Definition session_invariant (σ : State) : Prop :=
  chars_invariant σ
  ∧ runLog_wf σ
  ∧ agents (workspace σ) = agentsRunConfig (workspace σ).

(** An agent whose [params] property is not [undefined]: its request can be
    built.  (A location outside the store reads as an object without
    properties, so such an agent is in the store.) *)
Definition params_defined (h : list obj) (agentConfig : loc) : Prop :=
  prop h agentConfig "params" ≠ VUndefined.

(** ** Runs

    The state in which the loop starts, its locals, and what [catch] and
    [finally] make of the loop's outcome. *)
Definition run_start (σ : State) : State :=
  setWorkspace (λ prev,
    with_runLog [] (with_error None (with_isRunning true prev))) σ.

Definition run_locals (baseInput : string) : RunLocals :=
  {| currentInput := baseInput; totalLatency := 0; newRunLog := [] |}.

Definition run_finish (c : Completion) (v : RunLocals) (σ : State) : State :=
  setWorkspace (λ prev,
    with_metrics
      (with_latency (totalLatency v)
        (with_agents_run (Z.of_nat (List.length (newRunLog v))) (metrics prev)))
      (with_isRunning false prev))
    match c with
    | Raised e => setWorkspace (λ prev, with_error (Some (message e)) prev) σ
    | Finished => σ
    end.

(** Total of the latencies of calls [k0 .. k0 + n - 1], accumulated the way
    [totalLatency += latency] does, starting from [acc]. *)
Definition accumulate_latency (env : RunEnv) (acc : float) (k0 n : nat) : float :=
  foldl (λ acc k, (acc + call_latency (calls env k))%float) acc (seq k0 n).

(** An environment given by a finite script of calls; calls beyond the
    script reject.  (Number::toString is not consulted for the latencies of
    the scripts below, which are far from 10^21.) *)
Definition scripted (script : list Call) : RunEnv :=
  {| client := Ok tt;
     calls := λ k, default
       {| startTime := 0; endTime := 0;
          response := Rejected {| err_name := "Error"; message := "no response" |} |}
       (script !! k);
     number_toString := λ _, "" |}.

(** Agent 1 answers after 1.5 s, agent 2's call fails. *)
Definition second_call_fails : RunEnv :=
  scripted [
    {| startTime := 0; response := Resolved (Some "requirements"); endTime := 1500 |};
    {| startTime := 1500;
       response := Rejected {| err_name := "Error";
                               message := "503 Service Unavailable" |};
       endTime := 1500 |}
  ].

(** Agent 1 answers, agent 2's call fails with an error that has no
    message ([new Error()]). *)
Definition second_call_fails_silently : RunEnv :=
  scripted [
    {| startTime := 0; response := Resolved (Some "requirements"); endTime := 1500 |};
    {| startTime := 1500;
       response := Rejected {| err_name := "Error"; message := "" |};
       endTime := 1500 |}
  ].

(** Following the specification's words: [error] is non-empty. *)
Definition spec_error_nonempty (σ : State) : bool :=
  match error (workspace σ) with
  | Some m => negb (String.eqb m "")
  | None => false
  end.

(** Four calls that each take 1004 ms. *)
Definition four_calls_1004ms : RunEnv :=
  scripted [
    {| startTime := 0; response := Resolved (Some "requirements"); endTime := 1004 |};
    {| startTime := 2000; response := Resolved (Some "gaps"); endTime := 3004 |};
    {| startTime := 4000; response := Resolved None; endTime := 5004 |};
    {| startTime := 6000; response := Resolved (Some "checklist"); endTime := 7004 |}
  ].

(** ** Recorded latencies, read back as numbers

    The binary64 value of an integer of magnitude below 2^53. *)
Definition float_of_Z (z : Z) : float :=
  if decide (z < 0) then (- of_uint63 (Uint63Axioms.of_Z (- z)))%float
  else of_uint63 (Uint63Axioms.of_Z z).

(** The number that a string written by [toFixed(2)] denotes: its digits
    read as hundredths (exact below 2^53 hundredths, where one correctly
    rounded division gives the nearest binary64). *)
Definition number_of_fixed2 (s : string) : float :=
  let '(negative, body) :=
    match s with
    | String "-" rest => (true, rest)
    | _ => (false, s)
    end in
  match split "." body with
  | [whole; fraction] =>
      match NilZero.uint_of_string (whole +:+ fraction) with
      | Some u =>
          let x := (float_of_Z (Z.of_uint u) / 100)%float in
          if negative then (- x)%float else x
      | None => nan
      end
  | _ => nan
  end.

(** Following the specification's words: the sum, over the run log, of each
    entry's recorded latency. *)
Definition spec_recorded_latency_sum (σ : State) : float :=
  foldl (λ acc l,
    match prop (heap σ) l "latency" with
    | VStr s => (acc + number_of_fixed2 s)%float
    | VNum x => (acc + x)%float
    | _ => nan
    end) 0%float (runLog (workspace σ)).

(** [|a - b| <= tolerance] *)
Definition within_tolerance (tolerance a b : float) : bool :=
  PrimFloat.leb (abs (a - b)) tolerance.

(** ** Ingested text

    What the OCR loop builds: each page's text followed by a blank line. *)
Definition pages_text (texts : list string) : string :=
  foldr (λ text acc, text +:+ nl +:+ nl +:+ acc) "" texts.

(** Following the specification's words: the page texts concatenated with a
    blank-line separator. *)
Definition spec_join_pages (texts : list string) : string :=
  String.concat (nl +:+ nl) texts.

(** A scanned letter of two pages. *)
Definition two_page_pdf : File :=
  {| file_type := "application/pdf";
     readAsText := None;
     getDocument := Ok {| numPages := 2;
                          recognize := λ i, match i with
                                            | 1%nat => Recognized "page one"
                                            | 2%nat => Recognized "page two"
                                            | _ => PageFailed (TypeError "no such page")
                                            end |} |}.

(** A Markdown file. *)
Definition markdown_file : File :=
  {| file_type := "text/markdown";
     readAsText := Some "# Guidance";
     getDocument := Err (TypeError "Invalid PDF structure") |}.

(** A one-page PDF whose page reads "a". *)
Definition one_page_pdf : File :=
  {| file_type := "application/pdf";
     readAsText := None;
     getDocument := Ok {| numPages := 1; recognize := λ _, Recognized "a" |} |}.

(** The state after the four-call run, with a full run log to edit. *)
Definition after_four_calls : State :=
  handleRunChain four_calls_1004ms "guidance" (initial_state "" "").

(** ** Further states and inputs *)

(** An environment in which the client cannot be constructed. *)
Definition client_unavailable : RunEnv :=
  {| client := Err {| err_name := "Error";
                      message := "An API Key must be set when running in a browser" |};
     calls := calls four_calls_1004ms;
     number_toString := λ _, "" |}.

(** The initial state after agent 2 lost its [params] object. *)
Definition second_agent_without_params : State :=
  state_of (handleRunConfigChange 1 "params" VUndefined (initial_state "" "")).

(** The agents as the page can leave them: the run configuration is the four
    initial references, each agent still refers to its own [params] object,
    and the run-log entries are distinct objects allocated after them. *)
Definition agents_intact (σ : State) : Prop :=
  agentsRunConfig (workspace σ) = initialAgents
  ∧ (8 ≤ List.length (heap σ))%nat
  ∧ (∀ i, (i < 4)%nat → prop (heap σ) (2 * i)%nat "params" = VRef (2 * i + 1)%nat)
  ∧ NoDup (runLog (workspace σ))
  ∧ Forall (λ l, (8 ≤ l < List.length (heap σ))%nat) (runLog (workspace σ)).

Fixpoint has_dot (s : string) : bool :=
  match s with
  | EmptyString => false
  | String c s' => Ascii.eqb c "." || has_dot s'
  end.

(** The data of the file offered last. *)
Definition last_offer (σ : State) : option ExportData :=
  exportData <$> last (downloads σ).

(** A scan of four pages whose third page cannot be read. *)
Definition smudged_third_page : File :=
  {| file_type := "application/pdf";
     readAsText := None;
     getDocument := Ok {| numPages := 4;
                          recognize := λ i, match i with
                                            | 3%nat => PageFailed
                                                (TypeError "Error attempting to read image.")
                                            | _ => Recognized "text"
                                            end |} |}.

(** Two states with the same results of the last run: store, run log, agent
    lists, run counters, error, requests and downloads. *)
Definition same_run_results (σ σ' : State) : Prop :=
  heap σ' = heap σ
  ∧ runLog (workspace σ') = runLog (workspace σ)
  ∧ agents (workspace σ') = agents (workspace σ)
  ∧ agentsRunConfig (workspace σ') = agentsRunConfig (workspace σ)
  ∧ agents_run (metrics (workspace σ')) = agents_run (metrics (workspace σ))
  ∧ latency (metrics (workspace σ')) = latency (metrics (workspace σ))
  ∧ error (workspace σ') = error (workspace σ)
  ∧ isRunning (workspace σ') = isRunning (workspace σ)
  ∧ requests σ' = requests σ
  ∧ downloads σ' = downloads σ.

(** * A run, await by await

    [handleRunChain] is an async function.  It runs from the click to its
    first [await], and then from each settled call to the next [await], or
    through [catch] and [finally] to its end.  The state updates of one such
    stretch are published together (the root is made with [createRoot],
    which batches them); between two stretches the component is on the
    screen and any other handler may run. *)

(** A run whose call is awaited: the agent being called, the agents after it
    in the array the loop iterates (the [agentsRunConfig] of the render that
    was clicked), and the handler's locals. *)
Record Pending := {
  pending_env : RunEnv;
  pending_agent : loc;
  pending_rest : list loc;
  pending_locals : RunLocals;
}.

(** What is on the screen, and the run in progress if there is one. *)
Definition Published : Type := State * option Pending.

Definition on_screen (p : Published) : State := p.1.

Definition in_progress (p : Published) : option Pending := p.2.

(** From the head of the loop to the next [await], or to the end of the
    handler when no agent is left or the request cannot be built. *)
Definition advance (env : RunEnv) (configs : list loc) (v : RunLocals)
    (σ : State) : Published :=
  match configs with
  | [] => (run_finish Finished v σ, None)
  | agentConfig :: rest =>
      match build_request (heap σ) agentConfig (currentInput v) with
      | Err e => (run_finish (Raised e) v σ, None)
      | Ok request =>
          (issue request σ,
           Some {| pending_env := env; pending_agent := agentConfig;
                   pending_rest := rest; pending_locals := v |})
      end
  end.

(** The click on the run button, up to the first [await]. *)
Definition begin_run (env : RunEnv) (baseInput : string) (σ : State) : Published :=
  match client env with
  | Err e => (run_finish (Raised e) (run_locals baseInput) (run_start σ), None)
  | Ok _ =>
      advance env (agentsRunConfig (workspace σ)) (run_locals baseInput) (run_start σ)
  end.

(** The awaited call settles: the rest of that iteration, then on to the
    next [await] or to the end. *)
Definition settle (r : Pending) (σ : State) : Published :=
  let call := calls (pending_env r) (List.length (newRunLog (pending_locals r))) in
  match response call with
  | Rejected e => (run_finish (Raised e) (pending_locals r) σ, None)
  | Resolved text =>
      let '(v, σ) :=
        record_step (pending_env r) (pending_agent r) call text (pending_locals r) σ in
      advance (pending_env r) (pending_rest r) v σ
  end.

(** What can happen next: a handler is called, or the awaited call
    settles. *)
Inductive Turn :=
| Fires (ev : Event)
| Settles.

(** One turn.  The run button is disabled while [isRunning] is set, so a
    click on it then calls nothing; every other handler runs whenever its
    event fires, on the state that is on the screen. *)
Definition take_turn (t : Turn) (p : Published) : Published :=
  match t with
  | Fires (RunChain env baseInput) =>
      if isRunning (workspace p.1) then p else begin_run env baseInput p.1
  | Fires ev => (handle ev p.1, p.2)
  | Settles =>
      match p.2 with
      | Some r => settle r p.1
      | None => p
      end
  end.

(** What is published after a sequence of turns, oldest first. *)
Definition published (prompt guidance : string) (turns : list Turn) : Published :=
  foldl (λ p t, take_turn t p) (initial_state prompt guidance, None) turns.

(** What holds of everything published.  While a run is in progress
    [isRunning] is set, the run log on the screen is the run's own list and
    the entries logged and the agents still to call are four at most;
    otherwise [isRunning] is clear and [agents_run] is the length of the run
    log. *)
Definition published_invariant (p : Published) : Prop :=
  chars_invariant p.1
  ∧ runLog_wf p.1
  ∧ agentsRunConfig (workspace p.1) = initialAgents
  ∧ agents (workspace p.1) = initialAgents
  ∧ 0 ≤ ocr_pages (metrics (workspace p.1))
  ∧ 0 ≤ agents_run (metrics (workspace p.1)) ≤ 4
  ∧ match p.2 with
    | None =>
        isRunning (workspace p.1) = false
        ∧ agents_run (metrics (workspace p.1))
          = Z.of_nat (List.length (runLog (workspace p.1)))
    | Some r =>
        isRunning (workspace p.1) = true
        ∧ runLog (workspace p.1) = newRunLog (pending_locals r)
        ∧ (List.length (newRunLog (pending_locals r)) + S (List.length (pending_rest r))
           ≤ 4)%nat
    end.

(** * Properties *)

(** ** Store and array lemmas *)

Lemma array_get_out_of_range (arr : list loc) (index : Z) :
  index < 0 ∨ Z.of_nat (List.length arr) ≤ index →
  array_get arr index = VUndefined.
Proof.
  intros Hout. unfold array_get.
  destruct (decide (0 ≤ index)) as [Hnn|]; [|done].
  destruct Hout as [Hneg|Hge]; [lia|].
  rewrite lookup_ge_None_2; [done|lia].
Qed.

Lemma array_get_in_range (arr : list loc) (i : nat) (l : loc) :
  arr !! i = Some l → array_get arr (Z.of_nat i) = VRef l.
Proof.
  intros Hl. unfold array_get.
  destruct (decide (0 ≤ Z.of_nat i)); [|lia].
  by rewrite Nat2Z.id, Hl.
Qed.

Lemma deref_insert_eq (h : list obj) (l : loc) (o : obj) :
  (l < List.length h)%nat → deref (<[l := o]> h) l = o.
Proof. intros Hl. unfold deref. by rewrite list_lookup_insert_eq. Qed.

Lemma deref_insert_ne (h : list obj) (l l' : loc) (o : obj) :
  l ≠ l' → deref (<[l := o]> h) l' = deref h l'.
Proof. intros Hne. unfold deref. by rewrite list_lookup_insert_ne. Qed.

Lemma deref_app_l (h h' : list obj) (l : loc) :
  (l < List.length h)%nat → deref (h ++ h') l = deref h l.
Proof. intros Hl. unfold deref. by rewrite lookup_app_l. Qed.

Lemma deref_alloc (h : list obj) (o : obj) :
  deref (h ++ [o]) (List.length h) = o.
Proof. unfold deref. by rewrite list_lookup_middle. Qed.

(** ** Agent Registry *)

(** C10: [handleRunConfigChange] does not check [index]; outside the run
    configuration it reads a missing element, a TypeError escapes, and the
    state (store and workspace) is exactly as before. *)
Theorem C10_run_config_index_unchecked (index : Z) (field : string)
    (value : val) (σ : State) :
  index < 0 ∨ Z.of_nat (List.length (agentsRunConfig (workspace σ))) ≤ index →
  ∃ msg, handleRunConfigChange index field value σ = Threw (TypeError msg) σ.
Proof.
  intros Hout. unfold handleRunConfigChange.
  rewrite (array_get_out_of_range _ _ Hout).
  destruct (startsWith "params." field); simpl; eauto.
Qed.

Lemma C10_run_config_index_unchecked_witness :
  ∃ msg, handleRunConfigChange 4 "params.temperature" (VNum 0.5)
           (initial_state "" "")
         = Threw (TypeError msg) (initial_state "" "").
Proof.
  apply (C10_run_config_index_unchecked 4 "params.temperature" (VNum 0.5)
           (initial_state "" "")).
  right. vm_compute. discriminate.
Defined.

(** An in-range edit of a top-level field (other than [__proto__]) writes
    the property of the object the run configuration refers to; a base list
    holding the same reference reads the new value. *)
Lemma handleRunConfigChange_writes_through (σ : State) (i : nat) (l : loc)
    (field : string) (value : val) :
  agentsRunConfig (workspace σ) !! i = Some l →
  (l < List.length (heap σ))%nat →
  startsWith "params." field = false →
  field ≠ "__proto__" →
  ∃ σ', handleRunConfigChange (Z.of_nat i) field value σ = Done σ'
        ∧ agents (workspace σ') = agents (workspace σ)
        ∧ agentsRunConfig (workspace σ') = agentsRunConfig (workspace σ)
        ∧ prop (heap σ') l field = value.
Proof.
  intros Hl Hlt Hfield _. unfold handleRunConfigChange.
  rewrite Hfield, (array_get_in_range _ _ _ Hl). simpl.
  eexists. split; [reflexivity|]. simpl. repeat split.
  unfold prop. by rewrite deref_insert_eq, lookup_insert_eq.
Qed.

(** C1: on the code the base list is not protected.  In the initial state
    [agents] and [agentsRunConfig] hold the same four references, and the
    edit writes through the reference: changing the model of run-configuration
    entry 0 changes the model that base agent 0 reads, while the list of
    references itself stays the same. *)
Theorem C1_run_config_edit_changes_base_agent (prompt guidance : string) :
  ∃ σ', handleRunConfigChange 0 "model" (VStr "gemini-2.5-pro")
          (initial_state prompt guidance) = Done σ'
    ∧ agents (workspace σ') = agents (workspace (initial_state prompt guidance))
    ∧ get_prop (heap (initial_state prompt guidance))
        (array_get (agents (workspace (initial_state prompt guidance))) 0) "model"
      = Ok (VStr "gemini-2.5-flash")
    ∧ get_prop (heap σ') (array_get (agents (workspace σ')) 0) "model"
      = Ok (VStr "gemini-2.5-pro").
Proof. eexists. split; [reflexivity|]. by vm_compute. Qed.

(** ** Handoff Editor *)

(** C7: editing the output of entry [index] of a well-formed run log returns
    normally, keeps the log's entries, replaces the [output] property of that
    entry and nothing else in the store: the entry's other properties, every
    other object (so every other entry), the metrics and the record of issued
    generateContent calls are as before. *)
Theorem C7_handoff_edit_frame (σ : State) (index : Z) (newOutput : val) :
  runLog_wf σ →
  0 ≤ index < Z.of_nat (List.length (runLog (workspace σ))) →
  ∃ σ' l,
    handleHandoffEdit index newOutput σ = Done σ'
    ∧ runLog (workspace σ) !! Z.to_nat index = Some l
    ∧ runLog (workspace σ') = runLog (workspace σ)
    ∧ deref (heap σ') l = <["output" := newOutput]> (deref (heap σ) l)
    ∧ prop (heap σ') l "latency" = prop (heap σ) l "latency"
    ∧ prop (heap σ') l "model" = prop (heap σ) l "model"
    ∧ prop (heap σ') l "agentName" = prop (heap σ) l "agentName"
    ∧ (∀ l', l' ≠ l → deref (heap σ') l' = deref (heap σ) l')
    ∧ (∀ j l', j ≠ Z.to_nat index → runLog (workspace σ) !! j = Some l' →
         deref (heap σ') l' = deref (heap σ) l')
    ∧ metrics (workspace σ') = metrics (workspace σ)
    ∧ requests σ' = requests σ.
Proof.
  intros [Hnodup Hvalid] Hidx.
  destruct (lookup_lt_is_Some_2 (runLog (workspace σ)) (Z.to_nat index))
    as [l Hl]; [lia|].
  assert (Hlt : (l < List.length (heap σ))%nat).
  { eapply (Forall_lookup_1 _ _ _ _ Hvalid Hl). }
  assert (Hget : array_get (runLog (workspace σ)) index = VRef l).
  { rewrite <- (Z2Nat.id index) by lia. by apply array_get_in_range. }
  unfold handleHandoffEdit. rewrite Hget. simpl.
  eexists _, l. split; [reflexivity|]. simpl.
  assert (Hobj : deref (<[l := <["output" := newOutput]> (deref (heap σ) l)]> (heap σ)) l
                 = <["output" := newOutput]> (deref (heap σ) l))
    by (by apply deref_insert_eq).
  repeat split; try done.
  - unfold prop. rewrite Hobj. by rewrite lookup_insert_ne.
  - unfold prop. rewrite Hobj. by rewrite lookup_insert_ne.
  - unfold prop. rewrite Hobj. by rewrite lookup_insert_ne.
  - intros l' Hne. by apply deref_insert_ne.
  - intros j l' Hj Hl'. apply deref_insert_ne. intros ->.
    apply Hj. symmetry. by eapply NoDup_lookup.
Qed.

(** ** Chain Executor *)

Lemma get_prop_ref (h : list obj) (l : loc) (key : string) :
  get_prop h (VRef l) key = Ok (prop h l key).
Proof. reflexivity. Qed.

Lemma params_defined_in_store (h : list obj) (a : loc) :
  params_defined h a → (a < List.length h)%nat.
Proof.
  unfold params_defined, prop, deref. intros Hp.
  destruct (h !! a) eqn:Ha; [by eapply lookup_lt_Some|].
  exfalso. apply Hp. simpl. by rewrite lookup_empty.
Qed.

Lemma prop_app_l (h h' : list obj) (l : loc) (key : string) :
  (l < List.length h)%nat → prop (h ++ h') l key = prop h l key.
Proof. intros Hl. unfold prop. by rewrite deref_app_l. Qed.

Lemma params_defined_app (h h' : list obj) (a : loc) :
  params_defined h a → params_defined (h ++ h') a.
Proof.
  intros Hp. unfold params_defined.
  rewrite prop_app_l; [done|]. by apply params_defined_in_store.
Qed.

Lemma logEntry_app (env : RunEnv) (h h' : list obj) (a : loc)
    (out : string) (lat : float) :
  (a < List.length h)%nat →
  logEntry env (h ++ h') a out lat = logEntry env h a out lat.
Proof. intros Ha. unfold logEntry. by rewrite !prop_app_l. Qed.

Lemma build_request_text (h : list obj) (a : loc) (input : string) (r : Request) :
  build_request h a input = Ok r → req_text r = input.
Proof.
  unfold build_request. rewrite !get_prop_ref. simpl.
  destruct (get_prop h (prop h a "params") "temperature"); simpl; [|done].
  destruct (get_prop h (prop h a "params") "maxOutputTokens"); simpl; [|done].
  by intros [= <-].
Qed.

Lemma build_request_defined (h : list obj) (a : loc) (input : string) :
  params_defined h a → ∃ r, build_request h a input = Ok r.
Proof.
  unfold params_defined, build_request. rewrite !get_prop_ref. simpl.
  destruct (prop h a "params"); [done|..]; simpl; eauto.
Qed.

(** One resolved iteration, field by field. *)
Lemma record_step_locals env a call text v σ :
  (record_step env a call text v σ).1 =
  {| currentInput := call_output text;
     totalLatency := (totalLatency v + call_latency call)%float;
     newRunLog := newRunLog v ++ [List.length (heap σ)] |}.
Proof. reflexivity. Qed.

Lemma record_step_state env a call text v σ :
  (record_step env a call text v σ).2 =
  setWorkspace (with_runLog (newRunLog v ++ [List.length (heap σ)]))
    (with_heap
       (heap σ ++ [logEntry env (heap σ) a (call_output text) (call_latency call)]) σ).
Proof. reflexivity. Qed.

(** What a run of the loop leaves untouched, and the shape of what it adds:
    the store grows by the new entries, [newRunLog] by their locations, the
    record of calls by the requests issued. *)
Lemma for_of_agents_frame (env : RunEnv) (configs : list loc) :
  ∀ v σ c v' σ',
    for_of_agents env configs v σ = (c, v', σ') →
    ∃ ents reqs,
      heap σ' = heap σ ++ ents
      ∧ newRunLog v' = newRunLog v ++ seq (List.length (heap σ)) (List.length ents)
      ∧ requests σ' = requests σ ++ reqs
      ∧ downloads σ' = downloads σ
      ∧ activeTab σ' = activeTab σ
      ∧ workspace σ' = with_runLog (runLog (workspace σ')) (workspace σ)
      ∧ (runLog (workspace σ) = newRunLog v → runLog (workspace σ') = newRunLog v').
Proof.
  induction configs as [|a rest IH]; intros v σ c v' σ'; simpl.
  - intros [= <- <- <-]. exists [], []. rewrite !app_nil_r.
    by destruct σ as [? [] ? ? ?].
  - destruct (build_request (heap σ) a (currentInput v)) as [request|e] eqn:Hreq.
    2:{ intros [= <- <- <-]. exists [], []. rewrite !app_nil_r.
        by destruct σ as [? [] ? ? ?]. }
    destruct (response (calls env (List.length (newRunLog v)))) as [text|e] eqn:Hresp.
    2:{ intros [= <- <- <-]. exists [], [request]. simpl. rewrite !app_nil_r.
        by destruct σ as [? [] ? ? ?]. }
    intros Hrun. apply IH in Hrun as (ents & reqs & Hh & Hlog & Hr & Hd & Ht & Hw & Hrl).
    simpl in *.
    eexists (_ :: ents), (request :: reqs).
    rewrite Hh, Hlog, Hr, Hd, Ht, <- !app_assoc. simpl.
    rewrite length_app, Nat.add_1_r. repeat split; try done.
    intros _. rewrite Hrl by done.
    by rewrite Hlog, length_app, Nat.add_1_r, <- app_assoc.
Qed.

Lemma logEntry_output env h a out lat :
  logEntry env h a out lat !! "output" = Some (VStr out).
Proof. unfold logEntry. by rewrite lookup_insert_ne, lookup_insert_eq by done. Qed.

Lemma logEntry_latency env h a out lat :
  logEntry env h a out lat !! "latency"
  = Some (VStr (toFixed2 (number_toString env) lat)).
Proof. unfold logEntry. by rewrite lookup_insert_eq. Qed.

Lemma logEntry_agentName env h a out lat :
  logEntry env h a out lat !! "agentName" = Some (prop h a "name").
Proof. unfold logEntry. by rewrite !lookup_insert_ne, lookup_insert_eq by done. Qed.

Lemma logEntry_model env h a out lat :
  logEntry env h a out lat !! "model" = Some (prop h a "model").
Proof. unfold logEntry. by rewrite !lookup_insert_ne, lookup_insert_eq by done. Qed.

(** Handoff inside the loop: the first request carries the current input,
    and each later one carries the [output] recorded in the entry pushed by
    the iteration before it. *)
Lemma for_of_agents_handoff (env : RunEnv) (configs : list loc) :
  ∀ v σ c v' σ',
    for_of_agents env configs v σ = (c, v', σ') →
    ∃ reqs,
      requests σ' = requests σ ++ reqs
      ∧ (∀ r, reqs !! 0%nat = Some r → req_text r = currentInput v)
      ∧ (∀ j r, reqs !! S j = Some r →
           ∃ l, newRunLog v' !! (List.length (newRunLog v) + j)%nat = Some l
                ∧ prop (heap σ') l "output" = VStr (req_text r)).
Proof.
  induction configs as [|a rest IH]; intros v σ c v' σ'; simpl.
  - intros [= <- <- <-]. exists []. by rewrite app_nil_r.
  - destruct (build_request (heap σ) a (currentInput v)) as [request|e] eqn:Hreq.
    2:{ intros [= <- <- <-]. exists []. by rewrite app_nil_r. }
    apply build_request_text in Hreq.
    destruct (response (calls env (List.length (newRunLog v)))) as [text|e] eqn:Hresp.
    2:{ intros [= <- <- <-]. exists [request]. simpl. split; [done|].
        split; [by intros r [= <-]|]. by intros j r. }
    intros Hrun.
    destruct (for_of_agents_frame _ _ _ _ _ _ _ Hrun)
      as (ents & _ & Hh & Hlog & _).
    apply IH in Hrun as (reqs & Hr & Hfirst & Hnext). simpl in *.
    exists (request :: reqs). rewrite Hr, <- app_assoc. split; [done|].
    split; [by intros r [= <-]|].
    intros [|j] r Hj; simpl in Hj.
    + exists (List.length (heap σ)). rewrite Hlog, Hh, Nat.add_0_r. split.
      * rewrite <- app_assoc. simpl. by rewrite list_lookup_middle.
      * rewrite prop_app_l by (rewrite length_app; simpl; lia).
        unfold prop. rewrite deref_alloc, logEntry_output. simpl.
        by rewrite (Hfirst r Hj).
    + destruct (Hnext j r Hj) as (l & Hl & Hout). exists l. split; [|done].
      rewrite <- Hl. f_equal. rewrite length_app. simpl. lia.
Qed.

Lemma handleRunChain_client_throws env baseInput σ e :
  client env = Err e →
  handleRunChain env baseInput σ
  = run_finish (Raised e) (run_locals baseInput) (run_start σ).
Proof. intros Hc. unfold handleRunChain. by rewrite Hc. Qed.

Lemma handleRunChain_loop env baseInput σ u c v' σ' :
  client env = Ok u →
  for_of_agents env (agentsRunConfig (workspace σ)) (run_locals baseInput)
    (run_start σ) = (c, v', σ') →
  handleRunChain env baseInput σ = run_finish c v' σ'.
Proof.
  intros Hc Hrun. unfold handleRunChain. rewrite Hc.
  fold (run_start σ). fold (run_locals baseInput).
  by rewrite Hrun.
Qed.

Lemma run_finish_heap c v σ : heap (run_finish c v σ) = heap σ.
Proof. by destruct c. Qed.

Lemma run_finish_requests c v σ : requests (run_finish c v σ) = requests σ.
Proof. by destruct c. Qed.

Lemma run_finish_runLog c v σ :
  runLog (workspace (run_finish c v σ)) = runLog (workspace σ).
Proof. by destruct c. Qed.

(** The loop when the next [n] calls resolve and the one after them (if any
    agent is left) rejects with [e], over agents whose requests can be built
    up to that one: exactly [n] iterations complete. *)
Lemma for_of_agents_prefix (env : RunEnv) (configs : list loc) :
  ∀ v σ n e,
    (∀ k a, (k ≤ n)%nat → configs !! k = Some a → params_defined (heap σ) a) →
    (n ≤ List.length configs)%nat →
    (∀ j, (j < n)%nat →
       ∃ text, response (calls env (List.length (newRunLog v) + j)%nat) = Resolved text) →
    ((n < List.length configs)%nat →
       response (calls env (List.length (newRunLog v) + n)%nat) = Rejected e) →
    ∃ v' σ',
      for_of_agents env configs v σ
      = (if decide (n = List.length configs) then Finished else Raised e, v', σ')
      ∧ List.length (newRunLog v') = (List.length (newRunLog v) + n)%nat
      ∧ List.length (requests σ')
        = (List.length (requests σ)
           + if decide (n = List.length configs) then n else S n)%nat
      ∧ totalLatency v'
        = accumulate_latency env (totalLatency v) (List.length (newRunLog v)) n
      ∧ (∀ j a text,
           (j < n)%nat → configs !! j = Some a →
           response (calls env (List.length (newRunLog v) + j)%nat) = Resolved text →
           ∃ l, newRunLog v' !! (List.length (newRunLog v) + j)%nat = Some l
                ∧ deref (heap σ') l
                  = logEntry env (heap σ) a (call_output text)
                      (call_latency (calls env (List.length (newRunLog v) + j)%nat))).
Proof.
  induction configs as [|a rest IH]; intros v σ n e Hdef Hn Hres Hrej.
  - simpl in Hn. assert (n = 0%nat) as -> by lia. exists v, σ. simpl.
    rewrite !Nat.add_0_r. repeat split; try done; intros; lia.
  - pose proof (Hdef 0%nat a ltac:(lia) eq_refl) as Ha.
    destruct (build_request_defined _ _ (currentInput v) Ha) as [request Hreq].
    simpl. rewrite Hreq. destruct n as [|n].
    + rewrite Nat.add_0_r in Hrej. rewrite Hrej by (simpl; lia).
      exists v, (issue request σ). simpl.
      rewrite length_app, !Nat.add_0_r. simpl. repeat split; try done;
        intros; lia.
    + destruct (Hres 0%nat ltac:(lia)) as [text Hresp].
      rewrite Nat.add_0_r in Hresp. rewrite Hresp.
      set (v1 := (record_step env a (calls env (List.length (newRunLog v))) text v
                    (issue request σ)).1).
      set (σ1 := (record_step env a (calls env (List.length (newRunLog v))) text v
                    (issue request σ)).2).
      assert (Hlen1 : List.length (newRunLog v1) = S (List.length (newRunLog v))).
      { subst v1. simpl. rewrite length_app. simpl. lia. }
      destruct (IH v1 σ1 n e) as (v' & σ' & Hrun & Hlog & Hreqs & Hlat & Hent).
      * intros k b Hk Hb. subst σ1. simpl. apply params_defined_app.
        apply (Hdef (S k) b); [lia|done].
      * simpl in Hn. lia.
      * intros j Hj. rewrite Hlen1.
        replace (S (List.length (newRunLog v)) + j)%nat
          with (List.length (newRunLog v) + S j)%nat by lia.
        apply Hres. lia.
      * intros Hlt. rewrite Hlen1.
        replace (S (List.length (newRunLog v)) + n)%nat
          with (List.length (newRunLog v) + S n)%nat by lia.
        apply Hrej. simpl. lia.
      * exists v', σ'.
        destruct (for_of_agents_frame _ _ _ _ _ _ _ Hrun)
          as (ents & _ & Hh & Hnew & _).
        change (for_of_agents env rest v1 σ1 =
                (if decide (S n = List.length (a :: rest)) then Finished else Raised e,
                 v', σ')
                ∧ List.length (newRunLog v') = (List.length (newRunLog v) + S n)%nat
                ∧ List.length (requests σ')
                  = (List.length (requests σ)
                     + if decide (S n = List.length (a :: rest)) then S n else S (S n))%nat
                ∧ totalLatency v'
                  = accumulate_latency env (totalLatency v) (List.length (newRunLog v)) (S n)
                ∧ (∀ j a0 text0,
                     (j < S n)%nat → (a :: rest) !! j = Some a0 →
                     response (calls env (List.length (newRunLog v) + j)%nat) = Resolved text0 →
                     ∃ l, newRunLog v' !! (List.length (newRunLog v) + j)%nat = Some l
                          ∧ deref (heap σ') l
                            = logEntry env (heap σ) a0 (call_output text0)
                                (call_latency (calls env (List.length (newRunLog v) + j)%nat)))).
        split; [|split; [|split; [|split]]].
        -- rewrite Hrun. simpl.
           destruct (decide (n = List.length rest)), (decide (S n = S (List.length rest)));
             try done; lia.
        -- rewrite Hlog, Hlen1. lia.
        -- rewrite Hreqs. subst σ1. simpl. rewrite length_app. simpl.
           destruct (decide (n = List.length rest)), (decide (S n = S (List.length rest)));
             lia.
        -- rewrite Hlat, Hlen1. by subst v1.
        -- intros [|j] a0 text0 Hj Ha0 Hr0; simpl in Ha0.
           ++ injection Ha0 as <-. rewrite Nat.add_0_r in Hr0 |- *.
              rewrite Hresp in Hr0. injection Hr0 as <-.
              exists (List.length (heap σ)). subst v1 σ1. simpl in Hnew, Hh. split.
              ** rewrite Hnew, <- app_assoc. simpl. by rewrite list_lookup_middle.
              ** rewrite Hh. rewrite deref_app_l by (rewrite length_app; simpl; lia).
                 by rewrite deref_alloc.
           ++ destruct (Hent j a0 text0 ltac:(lia) Ha0) as (l & Hl & Hobj).
              { rewrite Hlen1.
                by replace (S (List.length (newRunLog v)) + j)%nat
                  with (List.length (newRunLog v) + S j)%nat by lia. }
              rewrite Hlen1 in Hl, Hobj.
              replace (S (List.length (newRunLog v)) + j)%nat
                with (List.length (newRunLog v) + S j)%nat in Hl, Hobj by lia.
              exists l. split; [done|]. rewrite Hobj. subst σ1. simpl.
              apply logEntry_app. apply params_defined_in_store.
              apply (Hdef (S j) a0); [lia|done].
Qed.

Lemma build_request_agent (h : list obj) (a : loc) (input : string) (r : Request) :
  build_request h a input = Ok r →
  req_model r = prop h a "model"
  ∧ req_systemInstruction r = prop h a "system_prompt".
Proof.
  unfold build_request. rewrite !get_prop_ref. simpl.
  destruct (get_prop h (prop h a "params") "temperature"); simpl; [|done].
  destruct (get_prop h (prop h a "params") "maxOutputTokens"); simpl; [|done].
  by intros [= <-].
Qed.

(** The requests of a run go to the agents in list order, one each: the
    j-th request is the one built for the j-th agent, and carries the model
    and system prompt that agent had when the run started (for an agent of
    the store, which logging new entries does not touch). *)
Lemma for_of_agents_requests (env : RunEnv) (configs : list loc) :
  ∀ v σ c v' σ',
    for_of_agents env configs v σ = (c, v', σ') →
    ∃ reqs,
      requests σ' = requests σ ++ reqs
      ∧ ∀ j r, reqs !! j = Some r →
          ∃ a, configs !! j = Some a
               ∧ ((a < List.length (heap σ))%nat →
                  req_model r = prop (heap σ) a "model"
                  ∧ req_systemInstruction r = prop (heap σ) a "system_prompt").
Proof.
  induction configs as [|a rest IH]; intros v σ c v' σ'; simpl.
  - intros [= <- <- <-]. exists []. by rewrite app_nil_r.
  - destruct (build_request (heap σ) a (currentInput v)) as [request|e] eqn:Hreq.
    2:{ intros [= <- <- <-]. exists []. by rewrite app_nil_r. }
    apply build_request_agent in Hreq as [Hm Hs].
    destruct (response (calls env (List.length (newRunLog v)))) as [text|e] eqn:Hresp.
    2:{ intros [= <- <- <-]. exists [request]. split; [done|].
        intros [|j] r; [|done]. intros [= <-]. by exists a. }
    intros Hrun. apply IH in Hrun as (reqs & Hr & Hagents).
    simpl in Hr. exists (request :: reqs). rewrite Hr, <- app_assoc.
    split; [done|]. intros [|j] r; simpl.
    + intros [= <-]. by exists a.
    + intros Hj. destruct (Hagents j r Hj) as (b & Hb & Hprops).
      exists b. split; [done|]. intros Hvalid. simpl in Hprops.
      rewrite <- !(prop_app_l (heap σ)
        [logEntry env (heap σ) a (call_output text)
           (call_latency (calls env (List.length (newRunLog v))))] b) by done.
      apply Hprops. rewrite length_app. simpl. lia.
Qed.

(** A run when the first [n] calls resolve and call [n] (if there is an
    agent [n]) rejects with [e], over agents whose requests can be built up
    to that one. *)
Lemma handleRunChain_prefix (env : RunEnv) (baseInput : string) (σ : State)
    (u : unit) (n : nat) (e : JsError) :
  client env = Ok u →
  (∀ k a, (k ≤ n)%nat → agentsRunConfig (workspace σ) !! k = Some a →
     params_defined (heap σ) a) →
  (n ≤ List.length (agentsRunConfig (workspace σ)))%nat →
  (∀ k, (k < n)%nat → ∃ text, response (calls env k) = Resolved text) →
  ((n < List.length (agentsRunConfig (workspace σ)))%nat →
     response (calls env n) = Rejected e) →
  ∃ σ' reqs,
    handleRunChain env baseInput σ = σ'
    ∧ requests σ' = requests σ ++ reqs
    ∧ List.length reqs
      = (if decide (n = List.length (agentsRunConfig (workspace σ))) then n else S n)
    ∧ (∀ j r, reqs !! j = Some r →
         ∃ a, agentsRunConfig (workspace σ) !! j = Some a
              ∧ req_model r = prop (heap σ) a "model"
              ∧ req_systemInstruction r = prop (heap σ) a "system_prompt")
    ∧ List.length (runLog (workspace σ')) = n
    ∧ error (workspace σ')
      = (if decide (n = List.length (agentsRunConfig (workspace σ))) then None
         else Some (message e))
    ∧ isRunning (workspace σ') = false
    ∧ metrics (workspace σ')
      = with_latency (accumulate_latency env 0 0 n)
          (with_agents_run (Z.of_nat n) (metrics (workspace σ)))
    ∧ (∀ k a text,
         (k < n)%nat → agentsRunConfig (workspace σ) !! k = Some a →
         response (calls env k) = Resolved text →
         ∃ l, runLog (workspace σ') !! k = Some l
              ∧ deref (heap σ') l
                = logEntry env (heap σ) a (call_output text)
                    (call_latency (calls env k))).
Proof.
  intros Hc Hdef Hn Hres Hrej.
  destruct (for_of_agents_prefix env (agentsRunConfig (workspace σ))
              (run_locals baseInput) (run_start σ) n e Hdef Hn Hres Hrej)
    as (v' & σ1 & Hrun & Hlog & Hreqs & Hlat & Hent).
  destruct (for_of_agents_frame _ _ _ _ _ _ _ Hrun)
    as (ents & reqs & Hh & Hnew & Hr & Hd & Ht & Hw & Hrl).
  destruct (for_of_agents_requests _ _ _ _ _ _ _ Hrun)
    as (reqs' & Hr' & Hagents).
  assert (reqs' = reqs) as -> by (eapply app_inv_head; by rewrite <- Hr, <- Hr').
  specialize (Hrl eq_refl). simpl in Hlog, Hlat, Hent, Hr, Hreqs, Hagents.
  assert (Hlen : List.length reqs
                 = if decide (n = List.length (agentsRunConfig (workspace σ)))
                   then n else S n).
  { rewrite Hr, length_app in Hreqs. lia. }
  exists (run_finish (if decide (n = List.length (agentsRunConfig (workspace σ)))
                      then Finished else Raised e) v' σ1), reqs.
  split; [apply (handleRunChain_loop _ _ _ _ _ _ _ Hc Hrun)|].
  rewrite run_finish_requests, run_finish_runLog, run_finish_heap, Hrl, Hlog.
  split; [done|]. split; [done|]. split.
  { intros j r Hj. destruct (Hagents j r Hj) as (a & Ha & Hprops).
    exists a. split; [done|]. apply Hprops. apply params_defined_in_store.
    apply (Hdef j a); [|done].
    apply lookup_lt_Some in Hj, Ha. rewrite Hlen in Hj.
    destruct (decide _); lia. }
  split; [done|].
  split. { destruct (decide _); simpl; [by rewrite Hw|done]. }
  split. { by destruct (decide _). }
  split. { destruct (decide _); simpl; rewrite Hw, Hlog, Hlat; done. }
  done.
Qed.

(** Every entry the loop pushes is the entry of the agent at its position:
    the call of that position resolved, and the entry is the [logEntry] of
    that agent and that call. *)
Lemma for_of_agents_entries (env : RunEnv) (configs : list loc) :
  ∀ v σ c v' σ',
    for_of_agents env configs v σ = (c, v', σ') →
    ∀ j l, newRunLog v' !! (List.length (newRunLog v) + j)%nat = Some l →
      ∃ a text,
        configs !! j = Some a
        ∧ response (calls env (List.length (newRunLog v) + j)%nat) = Resolved text
        ∧ ((a < List.length (heap σ))%nat →
           deref (heap σ') l
           = logEntry env (heap σ) a (call_output text)
               (call_latency (calls env (List.length (newRunLog v) + j)%nat))).
Proof.
  induction configs as [|a rest IH]; intros v σ c v' σ'; simpl.
  - intros [= <- <- <-] j l Hl. apply lookup_lt_Some in Hl. lia.
  - destruct (build_request (heap σ) a (currentInput v)) as [request|e].
    2:{ intros [= <- <- <-] j l Hl. apply lookup_lt_Some in Hl. lia. }
    destruct (response (calls env (List.length (newRunLog v)))) as [text|e] eqn:Hresp.
    2:{ intros [= <- <- <-] j l Hl. apply lookup_lt_Some in Hl. lia. }
    intros Hrun j l Hl.
    destruct (for_of_agents_frame _ _ _ _ _ _ _ Hrun) as (ents & _ & Hh & Hnew & _).
    simpl in Hh, Hnew. destruct j as [|j].
    + rewrite Nat.add_0_r in Hl |- *. exists a, text. split; [done|]. split; [done|].
      intros _. rewrite Hnew, <- app_assoc in Hl. simpl in Hl.
      rewrite list_lookup_middle in Hl by done. injection Hl as <-.
      rewrite Hh, deref_app_l by (rewrite length_app; simpl; lia).
      by rewrite deref_alloc.
    + destruct (IH _ _ _ _ _ Hrun j l) as (b & text' & Hb & Hresp' & Hobj).
      { rewrite <- Hl. simpl. rewrite length_app. simpl. f_equal. lia. }
      simpl in Hresp', Hobj.
      rewrite length_app, <- Nat.add_assoc in Hresp'.
      repeat rewrite length_app in Hobj. rewrite <- Nat.add_assoc in Hobj.
      simpl in Hresp', Hobj.
      exists b, text'. split; [done|]. split; [done|]. intros Hvalid.
      rewrite Hobj by lia.
      by apply logEntry_app.
Qed.

(** The loop reaches the agent at position [n] when the agents up to it have
    a [params] object and the calls before it resolve: its request is
    issued. *)
Lemma for_of_agents_reaches (env : RunEnv) (configs : list loc) :
  ∀ v σ c v' σ' n,
    for_of_agents env configs v σ = (c, v', σ') →
    (n < List.length configs)%nat →
    (∀ k a, (k ≤ n)%nat → configs !! k = Some a → params_defined (heap σ) a) →
    (∀ j, (j < n)%nat →
       ∃ text, response (calls env (List.length (newRunLog v) + j)%nat) = Resolved text) →
    (List.length (requests σ) + n < List.length (requests σ'))%nat.
Proof.
  induction configs as [|a rest IH]; intros v σ c v' σ' n Hrun Hn Hdef Hres;
    simpl in Hn; [lia|].
  pose proof (Hdef 0%nat a ltac:(lia) eq_refl) as Ha.
  destruct (build_request_defined _ _ (currentInput v) Ha) as [request Hreq].
  simpl in Hrun. rewrite Hreq in Hrun.
  destruct (response (calls env (List.length (newRunLog v)))) as [text|e] eqn:Hresp.
  - destruct (for_of_agents_frame _ _ _ _ _ _ _ Hrun) as (_ & reqs & _ & _ & Hr & _).
    simpl in Hr. destruct n as [|n].
    + rewrite Hr, !length_app. simpl. lia.
    + match type of Hrun with
      | for_of_agents _ _ ?w ?τ = _ =>
          pose proof (IH w τ c v' σ' n Hrun ltac:(lia)) as Hlen
      end.
      simpl in Hlen. rewrite !length_app in Hlen. simpl in Hlen.
      enough (List.length (requests σ) + 1 + n < List.length (requests σ'))%nat by lia.
      apply Hlen.
      * intros k b Hk Hb. apply params_defined_app. apply (Hdef (S k) b); [lia|done].
      * intros j Hj.
        replace (List.length (newRunLog v) + 1 + j)%nat
          with (List.length (newRunLog v) + S j)%nat by lia.
        apply Hres. lia.
  - destruct n as [|n].
    + injection Hrun as <- <- <-. simpl. rewrite length_app. simpl. lia.
    + destruct (Hres 0%nat ltac:(lia)) as [text Htext].
      rewrite Nat.add_0_r in Htext. congruence.
Qed.

(** C4: every agent that is invoked receives its predecessor's recorded
    output.  When the client is constructed, the agents at positions 0..n of
    the list each have a [params] object and the calls at positions 0..n-1
    resolve, the run issues a request for each of these agents, in list
    order, carrying that agent's model and system prompt; the request of
    the first agent carries the run's initial input, and the request of
    each later agent carries, character for character, the [output]
    recorded in the run-log entry of the agent before it, which is what
    that agent's call returned (the empty string when it returned no
    text). *)
Theorem C4_handoff_verbatim (env : RunEnv) (baseInput : string) (σ : State)
    (u : unit) (n : nat) :
  client env = Ok u →
  (n < List.length (agentsRunConfig (workspace σ)))%nat →
  (∀ k a, (k ≤ n)%nat → agentsRunConfig (workspace σ) !! k = Some a →
     params_defined (heap σ) a) →
  (∀ k, (k < n)%nat → ∃ text, response (calls env k) = Resolved text) →
  ∃ reqs,
    requests (handleRunChain env baseInput σ) = requests σ ++ reqs
    ∧ ∀ k, (k ≤ n)%nat →
        ∃ r a,
          reqs !! k = Some r
          ∧ agentsRunConfig (workspace σ) !! k = Some a
          ∧ req_model r = prop (heap σ) a "model"
          ∧ req_systemInstruction r = prop (heap σ) a "system_prompt"
          ∧ match k with
            | O => req_text r = baseInput
            | S k' =>
                ∃ l a' text,
                  runLog (workspace (handleRunChain env baseInput σ)) !! k' = Some l
                  ∧ agentsRunConfig (workspace σ) !! k' = Some a'
                  ∧ prop (heap (handleRunChain env baseInput σ)) l "agentName"
                    = prop (heap σ) a' "name"
                  ∧ response (calls env k') = Resolved text
                  ∧ get_prop (heap (handleRunChain env baseInput σ)) (VRef l) "output"
                    = Ok (VStr (req_text r))
                  ∧ req_text r = call_output text
            end.
Proof.
  intros Hc Hn Hdef Hres.
  destruct (for_of_agents env (agentsRunConfig (workspace σ))
              (run_locals baseInput) (run_start σ)) as [[c v'] σ'] eqn:Hrun.
  rewrite (handleRunChain_loop _ _ _ _ _ _ _ Hc Hrun).
  rewrite run_finish_heap, run_finish_requests, run_finish_runLog.
  destruct (for_of_agents_frame _ _ _ _ _ _ _ Hrun)
    as (_ & _ & _ & _ & _ & _ & _ & _ & Hlog).
  destruct (for_of_agents_handoff _ _ _ _ _ _ _ Hrun) as (reqs & Hr & Hfirst & Hnext).
  destruct (for_of_agents_requests _ _ _ _ _ _ _ Hrun) as (reqs' & Hr' & Hagents).
  assert (reqs' = reqs) as -> by (eapply app_inv_head; by rewrite <- Hr, <- Hr').
  pose proof (for_of_agents_reaches _ _ _ _ _ _ _ n Hrun Hn Hdef Hres) as Hlen.
  pose proof (for_of_agents_entries _ _ _ _ _ _ _ Hrun) as Hent.
  rewrite Hr, length_app in Hlen. simpl in Hr, Hfirst, Hnext, Hagents, Hent.
  exists reqs. rewrite Hlog by done. split; [done|]. intros k Hk.
  destruct (lookup_lt_is_Some_2 reqs k ltac:(lia)) as [r Hreq].
  destruct (Hagents k r Hreq) as (a & Ha & Hprops).
  destruct Hprops as [Hmodel Hprompt];
    [by apply params_defined_in_store, (Hdef k a)|].
  exists r, a. split; [done|]. split; [done|]. split; [done|]. split; [done|].
  destruct k as [|k]; [by apply Hfirst|].
  destruct (Hnext k r Hreq) as (l & Hl & Hout).
  destruct (Hent k l Hl) as (a' & text & Ha' & Hresp & Hobj).
  specialize (Hobj ltac:(by apply params_defined_in_store, (Hdef k a'); [lia|])).
  exists l, a', text. split; [done|]. split; [done|].
  assert (Htext : req_text r = call_output text).
  { unfold prop in Hout. rewrite Hobj, logEntry_output in Hout. by injection Hout. }
  split. { unfold prop at 1. by rewrite Hobj, logEntry_agentName. }
  split; [done|]. split; [|done].
  unfold get_prop. by rewrite Hobj, logEntry_output, Htext.
Qed.

(** C2 (as the code has it): when agent [i] (counted from 1) is the first
    whose call rejects, with an error [e] (the client was constructed and
    agents 1..i each have a [params] object, so their requests are made),
    the run issues exactly [i] requests, to agents 1..i in order (none after
    agent [i], agent [i] once), and ends with the [i - 1] entries of the
    completed prefix in the run log, the message of [e] in [error] (so
    [error] is set, and is a non-empty string exactly when that message is
    one), [isRunning] false, and [agents_run] and [latency] counting that
    prefix only. *)
Theorem C2_first_failure_aborts_chain (env : RunEnv) (baseInput : string)
    (σ : State) (u : unit) (i : nat) (e : JsError) :
  client env = Ok u →
  (∀ k a, (k < i)%nat → agentsRunConfig (workspace σ) !! k = Some a →
     params_defined (heap σ) a) →
  (1 ≤ i ≤ List.length (agentsRunConfig (workspace σ)))%nat →
  (∀ k, (k < i - 1)%nat → ∃ text, response (calls env k) = Resolved text) →
  response (calls env (i - 1)%nat) = Rejected e →
  ∃ σ' reqs,
    handleRunChain env baseInput σ = σ'
    ∧ requests σ' = requests σ ++ reqs
    ∧ List.length reqs = i
    ∧ (∀ j r, reqs !! j = Some r →
         ∃ a, agentsRunConfig (workspace σ) !! j = Some a
              ∧ req_model r = prop (heap σ) a "model"
              ∧ req_systemInstruction r = prop (heap σ) a "system_prompt")
    ∧ List.length (runLog (workspace σ')) = (i - 1)%nat
    ∧ (∀ k a text,
         (k < i - 1)%nat → agentsRunConfig (workspace σ) !! k = Some a →
         response (calls env k) = Resolved text →
         ∃ l, runLog (workspace σ') !! k = Some l
              ∧ deref (heap σ') l
                = logEntry env (heap σ) a (call_output text)
                    (call_latency (calls env k)))
    ∧ error (workspace σ') = Some (message e)
    ∧ error (workspace σ') ≠ None
    ∧ (message e ≠ "" → error (workspace σ') ≠ Some "")
    ∧ isRunning (workspace σ') = false
    ∧ agents_run (metrics (workspace σ')) = Z.of_nat (i - 1)
    ∧ latency (metrics (workspace σ')) = accumulate_latency env 0 0 (i - 1).
Proof.
  intros Hc Hdef Hi Hres Hrej.
  destruct (handleRunChain_prefix env baseInput σ u (i - 1) e Hc
              (λ k a Hk, Hdef k a ltac:(lia)) ltac:(lia) Hres (λ _, Hrej))
    as (σ' & reqs & Hrun & Hr & Hlen & Hagents & Hlog & Herr & Hrunning & Hm & Hent).
  destruct (decide (i - 1 = List.length (agentsRunConfig (workspace σ)))%nat);
    [lia|].
  exists σ', reqs. rewrite Hm, Herr. simpl.
  split; [done|]. split; [done|]. split; [lia|]. split; [done|].
  split; [done|]. split; [done|]. split; [done|]. split; [done|].
  split; [congruence|]. done.
Qed.

(** C3 (as the code has it): when every call of a run over [N] agents
    resolves, the run issues [N] requests and ends with [N] run-log entries,
    [agents_run = N], no error, [isRunning] false, and [metrics.latency] the
    running sum of the unrounded per-call latencies; the entry of call [k]
    records that call's latency as its [toFixed(2)] string. *)
Theorem C3_successful_run_totals (env : RunEnv) (baseInput : string)
    (σ : State) (u : unit) :
  client env = Ok u →
  Forall (params_defined (heap σ)) (agentsRunConfig (workspace σ)) →
  (∀ k, (k < List.length (agentsRunConfig (workspace σ)))%nat →
     ∃ text, response (calls env k) = Resolved text) →
  ∃ σ' reqs,
    handleRunChain env baseInput σ = σ'
    ∧ requests σ' = requests σ ++ reqs
    ∧ List.length reqs = List.length (agentsRunConfig (workspace σ))
    ∧ List.length (runLog (workspace σ'))
      = List.length (agentsRunConfig (workspace σ))
    ∧ agents_run (metrics (workspace σ'))
      = Z.of_nat (List.length (agentsRunConfig (workspace σ)))
    ∧ latency (metrics (workspace σ'))
      = accumulate_latency env 0 0 (List.length (agentsRunConfig (workspace σ)))
    ∧ error (workspace σ') = None
    ∧ isRunning (workspace σ') = false
    ∧ (∀ k l, runLog (workspace σ') !! k = Some l →
         get_prop (heap σ') (VRef l) "latency"
         = Ok (VStr (toFixed2 (number_toString env) (call_latency (calls env k))))).
Proof.
  intros Hc Hdef Hres.
  destruct (handleRunChain_prefix env baseInput σ u
              (List.length (agentsRunConfig (workspace σ)))
              {| err_name := ""; message := "" |} Hc
              (λ k a _, Forall_lookup_1 _ _ k a Hdef) ltac:(lia) Hres
              ltac:(lia))
    as (σ' & reqs & Hrun & Hr & Hlen & Hagents & Hlog & Herr & Hrunning & Hm & Hent).
  destruct (decide (List.length (agentsRunConfig (workspace σ))
                    = List.length (agentsRunConfig (workspace σ)))); [|done].
  exists σ', reqs. rewrite Hm. simpl.
  repeat split; try done.
  intros k l Hl.
  assert (Hk : (k < List.length (agentsRunConfig (workspace σ)))%nat).
  { rewrite <- Hlog. by eapply lookup_lt_Some. }
  destruct (lookup_lt_is_Some_2 _ _ Hk) as [a Ha].
  destruct (Hres k Hk) as [text Htext].
  destruct (Hent k a text Hk Ha Htext) as (l' & Hl' & Hobj).
  assert (l' = l) as -> by congruence.
  unfold get_prop. by rewrite Hobj, logEntry_latency.
Qed.

(** ** Concrete runs *)

Lemma initial_params_defined (prompt guidance : string) :
  Forall (params_defined (heap (initial_state prompt guidance)))
    (agentsRunConfig (workspace (initial_state prompt guidance))).
Proof. repeat constructor; by vm_compute. Qed.

Lemma C2_first_failure_aborts_chain_witness :
  ∃ σ' reqs,
    handleRunChain second_call_fails "guidance" (initial_state "" "") = σ'
    ∧ requests σ' = requests (initial_state "" "") ++ reqs
    ∧ List.length reqs = 2%nat
    ∧ (∀ j r, reqs !! j = Some r →
         ∃ a, agentsRunConfig (workspace (initial_state "" "")) !! j = Some a
              ∧ req_model r = prop (heap (initial_state "" "")) a "model"
              ∧ req_systemInstruction r
                = prop (heap (initial_state "" "")) a "system_prompt")
    ∧ List.length (runLog (workspace σ')) = (2 - 1)%nat
    ∧ (∀ k a text,
         (k < 2 - 1)%nat →
         agentsRunConfig (workspace (initial_state "" "")) !! k = Some a →
         response (calls second_call_fails k) = Resolved text →
         ∃ l, runLog (workspace σ') !! k = Some l
              ∧ deref (heap σ') l
                = logEntry second_call_fails (heap (initial_state "" "")) a
                    (call_output text) (call_latency (calls second_call_fails k)))
    ∧ error (workspace σ') = Some "503 Service Unavailable"
    ∧ error (workspace σ') ≠ None
    ∧ ("503 Service Unavailable" ≠ "" → error (workspace σ') ≠ Some "")
    ∧ isRunning (workspace σ') = false
    ∧ agents_run (metrics (workspace σ')) = Z.of_nat (2 - 1)
    ∧ latency (metrics (workspace σ'))
      = accumulate_latency second_call_fails 0 0 (2 - 1).
Proof.
  apply (C2_first_failure_aborts_chain second_call_fails "guidance"
           (initial_state "" "") tt 2
           {| err_name := "Error"; message := "503 Service Unavailable" |}).
  - reflexivity.
  - intros [|[|k]] a Hk; [| |lia]; intros [= <-]; by vm_compute.
  - vm_compute. lia.
  - intros k Hk. assert (k = 0%nat) as -> by (simpl in Hk; lia).
    eexists. reflexivity.
  - reflexivity.
Defined.

(** C2 (as stated) fails: [error] need not be non-empty.  In the chain of
    four agents whose second call rejects with an error that has no message,
    agent 2 is the first to fail and the run ends as the claim says (two
    requests, one entry, [isRunning] false), but [error] is the empty
    string. *)
Lemma C2_empty_message_leaves_error_empty :
  client second_call_fails_silently = Ok tt
  ∧ response (calls second_call_fails_silently 0) = Resolved (Some "requirements")
  ∧ response (calls second_call_fails_silently 1)
    = Rejected {| err_name := "Error"; message := "" |}
  ∧ List.length
      (requests (handleRunChain second_call_fails_silently "guidance"
                   (initial_state "" ""))) = 2%nat
  ∧ List.length
      (runLog (workspace (handleRunChain second_call_fails_silently "guidance"
                            (initial_state "" "")))) = 1%nat
  ∧ isRunning (workspace (handleRunChain second_call_fails_silently "guidance"
                            (initial_state "" ""))) = false
  ∧ error (workspace (handleRunChain second_call_fails_silently "guidance"
                        (initial_state "" ""))) = Some ""
  ∧ spec_error_nonempty (handleRunChain second_call_fails_silently "guidance"
                           (initial_state "" "")) = false.
Proof. repeat split; by vm_compute. Qed.

Lemma C3_successful_run_totals_witness :
  ∃ σ' reqs,
    handleRunChain four_calls_1004ms "guidance" (initial_state "" "") = σ'
    ∧ requests σ' = requests (initial_state "" "") ++ reqs
    ∧ List.length reqs
      = List.length (agentsRunConfig (workspace (initial_state "" "")))
    ∧ List.length (runLog (workspace σ'))
      = List.length (agentsRunConfig (workspace (initial_state "" "")))
    ∧ agents_run (metrics (workspace σ'))
      = Z.of_nat (List.length (agentsRunConfig (workspace (initial_state "" ""))))
    ∧ latency (metrics (workspace σ'))
      = accumulate_latency four_calls_1004ms 0 0
          (List.length (agentsRunConfig (workspace (initial_state "" ""))))
    ∧ error (workspace σ') = None
    ∧ isRunning (workspace σ') = false
    ∧ (∀ k l, runLog (workspace σ') !! k = Some l →
         get_prop (heap σ') (VRef l) "latency"
         = Ok (VStr (toFixed2 (number_toString four_calls_1004ms)
                       (call_latency (calls four_calls_1004ms k))))).
Proof.
  apply (C3_successful_run_totals four_calls_1004ms "guidance"
           (initial_state "" "") tt).
  - reflexivity.
  - repeat constructor; by vm_compute.
  - intros k Hk. simpl in Hk.
    destruct k as [|[|[|[|k]]]]; [eexists; reflexivity..|lia].
Defined.

Lemma C4_handoff_verbatim_witness :
  ∃ reqs,
    requests (handleRunChain four_calls_1004ms "guidance" (initial_state "" ""))
    = requests (initial_state "" "") ++ reqs
    ∧ ∀ k, (k ≤ 3)%nat →
        ∃ r a,
          reqs !! k = Some r
          ∧ agentsRunConfig (workspace (initial_state "" "")) !! k = Some a
          ∧ req_model r = prop (heap (initial_state "" "")) a "model"
          ∧ req_systemInstruction r = prop (heap (initial_state "" "")) a "system_prompt"
          ∧ match k with
            | O => req_text r = "guidance"
            | S k' =>
                ∃ l a' text,
                  runLog (workspace
                    (handleRunChain four_calls_1004ms "guidance" (initial_state "" "")))
                    !! k' = Some l
                  ∧ agentsRunConfig (workspace (initial_state "" "")) !! k' = Some a'
                  ∧ prop (heap (handleRunChain four_calls_1004ms "guidance"
                                  (initial_state "" ""))) l "agentName"
                    = prop (heap (initial_state "" "")) a' "name"
                  ∧ response (calls four_calls_1004ms k') = Resolved text
                  ∧ get_prop (heap (handleRunChain four_calls_1004ms "guidance"
                                      (initial_state "" ""))) (VRef l) "output"
                    = Ok (VStr (req_text r))
                  ∧ req_text r = call_output text
            end.
Proof.
  apply (C4_handoff_verbatim four_calls_1004ms "guidance" (initial_state "" "") tt 3).
  - reflexivity.
  - simpl. lia.
  - intros [|[|[|[|k]]]] a Hk; [| | | |lia]; intros [= <-]; by vm_compute.
  - intros k Hk. destruct k as [|[|[|k]]]; [eexists; reflexivity..|lia].
Defined.

(** ** Recorded latencies against the total *)

(** C3 (as stated) fails: in a successful run whose four calls take 1004 ms
    each, every entry records "1.00", so the recorded latencies sum to 4,
    while [metrics.latency] is 4.016; the two differ by more than 0.01. *)
Lemma C3_recorded_latencies_miss_total :
  error (workspace (handleRunChain four_calls_1004ms "guidance" (initial_state "" "")))
  = None
  ∧ List.length
      (runLog (workspace (handleRunChain four_calls_1004ms "guidance" (initial_state "" ""))))
    = 4%nat
  ∧ latency (metrics (workspace
      (handleRunChain four_calls_1004ms "guidance" (initial_state "" ""))))
    = 4.016%float
  ∧ spec_recorded_latency_sum
      (handleRunChain four_calls_1004ms "guidance" (initial_state "" ""))
    = 4%float
  ∧ within_tolerance 0.01
      (latency (metrics (workspace
         (handleRunChain four_calls_1004ms "guidance" (initial_state "" "")))))
      (spec_recorded_latency_sum
         (handleRunChain four_calls_1004ms "guidance" (initial_state "" "")))
    = false.
Proof. by vm_compute. Qed.

(** ** Strings *)

Lemma string_app_cons (c : ascii) (s t : string) :
  String c s +:+ t = String c (s +:+ t).
Proof. reflexivity. Qed.

Lemma string_app_nil_r (s : string) : s +:+ "" = s.
Proof. induction s as [|c s IH]; [done|]. by rewrite string_app_cons, IH. Qed.

Lemma string_app_assoc (s t u : string) : (s +:+ t) +:+ u = s +:+ (t +:+ u).
Proof. induction s as [|c s IH]; [done|]. by rewrite !string_app_cons, IH. Qed.

(** [String.substring 0 n s] is the prefix of [s] of length [min n |s|]. *)
Lemma substring_0_prefix (n : nat) (s : string) :
  ∃ rest, s = String.substring 0 n s +:+ rest.
Proof.
  revert s. induction n as [|n IH]; intros [|c s]; simpl.
  - by exists "".
  - by exists (String c s).
  - by exists "".
  - destruct (IH s) as [rest Hrest]. exists rest.
    by rewrite string_app_cons, <- Hrest.
Qed.

Lemma substring_0_length (n : nat) (s : string) :
  String.length (String.substring 0 n s) = (n `min` String.length s)%nat.
Proof.
  revert s. induction n as [|n IH]; intros [|c s]; simpl; try done.
  by rewrite IH.
Qed.

(** ** Export *)

(** C9: [downloadResults] offers one file, named agent_chain_results.json,
    whose [guidance_excerpt] is the prefix of [rawText] of length
    [min(1000, rawText.length)], whose [chain] holds, in log order, the
    [agentName], [model] and [output] of each run-log entry, and whose
    [metrics] are the workspace's; the workspace and the store are left as
    they were. *)
Theorem C9_export_document (σ : State) :
  ∃ d,
    downloads (downloadResults σ) = downloads σ ++ [d]
    ∧ download d = "agent_chain_results.json"
    ∧ (∃ rest, rawText (workspace σ) = guidance_excerpt (exportData d) +:+ rest)
    ∧ js_length (guidance_excerpt (exportData d))
      = Z.min 1000 (js_length (rawText (workspace σ)))
    ∧ List.length (chain (exportData d)) = List.length (runLog (workspace σ))
    ∧ (∀ k l, runLog (workspace σ) !! k = Some l →
         ∃ item, chain (exportData d) !! k = Some item
                 ∧ get_prop (heap σ) (VRef l) "agentName" = Ok (agent item)
                 ∧ get_prop (heap σ) (VRef l) "model" = Ok (item_model item)
                 ∧ get_prop (heap σ) (VRef l) "output" = Ok (output item))
    ∧ export_metrics (exportData d) = metrics (workspace σ)
    ∧ workspace (downloadResults σ) = workspace σ
    ∧ heap (downloadResults σ) = heap σ.
Proof.
  eexists. split; [reflexivity|]. simpl.
  assert (Hsub : substring (rawText (workspace σ)) 0 1000
                 = String.substring 0
                     (Z.to_nat (Z.min 1000 (js_length (rawText (workspace σ)))))
                     (rawText (workspace σ))).
  { unfold substring, js_length. f_equal; lia. }
  rewrite Hsub. repeat split.
  - apply substring_0_prefix.
  - unfold js_length. rewrite substring_0_length. lia.
  - by rewrite length_map.
  - intros k l Hl. eexists. rewrite list_lookup_fmap, Hl. simpl.
    by repeat split.
Qed.

(** ** Dashboard *)

(** C8: the completion score is the sum of three independent points, so a
    function of [ocr_pages], [chars] and [agents_run] alone with values in
    0..3; on the three documented inputs it is 3, 0 and 2, with the labels
    the status table gives them. *)
Theorem C8_completion_score (m : Metrics) :
  completion_score m
  = Z.b2z ((0 <? ocr_pages m) || (1000 <? chars m))
    + Z.b2z (2 <=? agents_run m)
    + Z.b2z ((5000 <? chars m) && (4 <=? agents_run m))
  ∧ 0 ≤ completion_score m ≤ 3
  ∧ (∀ ocr lat,
       completion_score {| ocr_pages := ocr; chars := 6000; agents_run := 4; latency := lat |} = 3)
  ∧ label <$> statusMap 3 = Some "Wow! Pro Level"
  ∧ (∀ lat,
       completion_score {| ocr_pages := 0; chars := 500; agents_run := 0; latency := lat |} = 0)
  ∧ label <$> statusMap 0 = Some "Getting Started"
  ∧ (∀ ocr lat,
       completion_score {| ocr_pages := ocr; chars := 1200; agents_run := 2; latency := lat |} = 2).
Proof.
  assert (Hsum : completion_score m
                 = Z.b2z ((0 <? ocr_pages m) || (1000 <? chars m))
                   + Z.b2z (2 <=? agents_run m)
                   + Z.b2z ((5000 <? chars m) && (4 <=? agents_run m))).
  { unfold completion_score.
    destruct ((0 <? ocr_pages m) || (1000 <? chars m)),
             (2 <=? agents_run m),
             ((5000 <? chars m) && (4 <=? agents_run m)); reflexivity. }
  split; [exact Hsum|]. split.
  { rewrite Hsum.
    destruct ((0 <? ocr_pages m) || (1000 <? chars m)),
             (2 <=? agents_run m),
             ((5000 <? chars m) && (4 <=? agents_run m)); simpl; lia. }
  repeat split; try done.
  - intros ocr lat. unfold completion_score. simpl. by rewrite orb_true_r.
  - intros ocr lat. unfold completion_score. simpl. by rewrite orb_true_r.
Qed.

(** ** Document Ingestion *)

Lemma ocr_loop_recognized (pdf : PdfDocument) (texts : list string) :
  ∀ i fullText,
    (∀ j text, texts !! j = Some text → recognize pdf (i + j)%nat = Recognized text) →
    ocr_loop pdf (List.length texts) i fullText = Ok (fullText +:+ pages_text texts).
Proof.
  induction texts as [|t ts IH]; intros i fullText Hpages; simpl.
  - by rewrite string_app_nil_r.
  - rewrite <- (Nat.add_0_r i) at 1. rewrite (Hpages 0%nat t eq_refl).
    rewrite IH.
    + by rewrite !string_app_assoc.
    + intros j text Hj. replace (S i + j)%nat with (i + S j)%nat by lia.
      by apply Hpages.
Qed.

(** One page that fails ends the loop with its error. *)
Lemma ocr_loop_page_failed (pdf : PdfDocument) (remaining i : nat)
    (fullText : string) (e : JsError) :
  recognize pdf i = PageFailed e →
  ocr_loop pdf (S remaining) i fullText = Err e.
Proof. intros Hp. simpl. by rewrite Hp. Qed.

(** C5: every way of bringing text in leaves [metrics.chars] equal to the
    length of [rawText]: a raw-text edit always does; a file selection or a
    PDF upload either ends in a state where it holds or (no file, a failed
    read, a rejected page) leaves the state exactly as it was. *)
Theorem C5_chars_tracks_rawText (σ : State) :
  (∀ newText,
     chars_invariant (handleRawTextChange newText σ)
     ∧ rawText (workspace (handleRawTextChange newText σ)) = newText)
  ∧ (∀ file,
       chars_invariant (state_of (handleFileChange file σ))
       ∨ state_of (handleFileChange file σ) = σ)
  ∧ (∀ file,
       chars_invariant (state_of (handlePdfUpload file σ))
       ∨ state_of (handlePdfUpload file σ) = σ).
Proof.
  assert (Hpdf : ∀ file,
            chars_invariant (state_of (handlePdfUpload file σ))
            ∨ state_of (handlePdfUpload file σ) = σ).
  { intros file. unfold handlePdfUpload.
    destruct (getDocument file) as [pdf|e]; [|by right].
    destruct (ocr_loop pdf (numPages pdf) 1 ""); [by left|by right]. }
  split; [|split; [|exact Hpdf]].
  - intros newText. unfold handleRawTextChange.
    destruct (activeTab σ); try done.
    by destruct (200 <? _).
  - intros [file|]; [|by right]. unfold handleFileChange.
    destruct (String.eqb (file_type file) "application/pdf"); [apply Hpdf|].
    destruct (readAsText file); [by left|by right].
Qed.

(** C6 (as the code has it): a PDF whose pages are all recognised replaces
    [rawText] by the page texts in page order, each followed by a blank
    line (the last one too), and sets [ocr_pages] to the page count and
    [chars] to the new length; a file of another type whose text loads
    replaces [rawText] by that text with [ocr_pages] 0; and a file of type
    application/pdf selected in the file input goes through the PDF path. *)
Theorem C6_ingestion_result (σ : State) :
  (∀ file pdf texts,
     getDocument file = Ok pdf →
     List.length texts = numPages pdf →
     (∀ j text, texts !! j = Some text → recognize pdf (S j) = Recognized text) →
     ∃ σ', handlePdfUpload file σ = Done σ'
           ∧ rawText (workspace σ') = pages_text texts
           ∧ ocr_pages (metrics (workspace σ')) = Z.of_nat (numPages pdf)
           ∧ chars (metrics (workspace σ')) = js_length (rawText (workspace σ')))
  ∧ (∀ file text,
       file_type file ≠ "application/pdf" →
       readAsText file = Some text →
       ∃ σ', handleFileChange (Some file) σ = Done σ'
             ∧ rawText (workspace σ') = text
             ∧ ocr_pages (metrics (workspace σ')) = 0
             ∧ chars (metrics (workspace σ')) = js_length (rawText (workspace σ')))
  ∧ (∀ file,
       file_type file = "application/pdf" →
       handleFileChange (Some file) σ = handlePdfUpload file σ).
Proof.
  split; [|split].
  - intros file pdf texts Hdoc Hlen Hpages. unfold handlePdfUpload.
    rewrite Hdoc, <- Hlen, (ocr_loop_recognized pdf texts 1 ""); [|done].
    eexists. split; [reflexivity|]. simpl. rewrite Hlen. by repeat split.
  - intros file text Htype Hread. unfold handleFileChange.
    apply String.eqb_neq in Htype. rewrite Htype, Hread.
    eexists. split; [reflexivity|]. by repeat split.
  - intros file Htype. unfold handleFileChange.
    apply String.eqb_eq in Htype. by rewrite Htype.
Qed.

Lemma C6_ingestion_result_witness :
  (∃ σ', handlePdfUpload two_page_pdf (initial_state "" "") = Done σ'
         ∧ rawText (workspace σ') = pages_text ["page one"; "page two"]
         ∧ ocr_pages (metrics (workspace σ')) = Z.of_nat 2
         ∧ chars (metrics (workspace σ')) = js_length (rawText (workspace σ')))
  ∧ (∃ σ', handleFileChange (Some markdown_file) (initial_state "" "") = Done σ'
           ∧ rawText (workspace σ') = "# Guidance"
           ∧ ocr_pages (metrics (workspace σ')) = 0
           ∧ chars (metrics (workspace σ')) = js_length (rawText (workspace σ')))
  ∧ handleFileChange (Some two_page_pdf) (initial_state "" "")
    = handlePdfUpload two_page_pdf (initial_state "" "").
Proof.
  destruct (C6_ingestion_result (initial_state "" "")) as (Hpdf & Htext & Hsel).
  split; [|split].
  - apply (Hpdf two_page_pdf
             {| numPages := 2;
                recognize := λ i, match i with
                                  | 1%nat => Recognized "page one"
                                  | 2%nat => Recognized "page two"
                                  | _ => PageFailed (TypeError "no such page")
                                  end |}
             ["page one"; "page two"]).
    + reflexivity.
    + reflexivity.
    + intros [|[|j]] text Hj; simpl in Hj; by inversion Hj.
  - apply (Htext markdown_file "# Guidance"); [discriminate|reflexivity].
  - apply (Hsel two_page_pdf). reflexivity.
Defined.

(** C6 (as stated) fails: for a one-page PDF reading "a" the page texts
    joined with a blank-line separator are "a", but the ingested text is "a"
    followed by a blank line, three characters long. *)
Lemma C6_blank_line_follows_last_page :
  spec_join_pages ["a"] = "a"
  ∧ rawText (workspace (state_of (handlePdfUpload one_page_pdf (initial_state "" ""))))
    = "a" +:+ nl +:+ nl
  ∧ rawText (workspace (state_of (handlePdfUpload one_page_pdf (initial_state "" ""))))
    ≠ spec_join_pages ["a"]
  ∧ chars (metrics (workspace
      (state_of (handlePdfUpload one_page_pdf (initial_state "" ""))))) = 3.
Proof. repeat split; try by vm_compute. Qed.

(** ** Sessions *)

Lemma set_prop_length (h h' : list obj) (v : val) (key : string) (x : val) :
  set_prop h v key x = Ok h' → List.length h' = List.length h.
Proof.
  destruct v; simpl; try done. intros [= <-]. by rewrite length_insert.
Qed.

(** A run keeps the text, both agent lists, the ingestion counters, the tab
    and the downloads; it extends the store with the entries it logs, at
    consecutive fresh locations. *)
Lemma handleRunChain_frame (env : RunEnv) (baseInput : string) (σ : State) :
  ∃ ents,
    heap (handleRunChain env baseInput σ) = heap σ ++ ents
    ∧ runLog (workspace (handleRunChain env baseInput σ))
      = seq (List.length (heap σ)) (List.length ents)
    ∧ rawText (workspace (handleRunChain env baseInput σ)) = rawText (workspace σ)
    ∧ agents (workspace (handleRunChain env baseInput σ)) = agents (workspace σ)
    ∧ agentsRunConfig (workspace (handleRunChain env baseInput σ))
      = agentsRunConfig (workspace σ)
    ∧ chars (metrics (workspace (handleRunChain env baseInput σ)))
      = chars (metrics (workspace σ))
    ∧ ocr_pages (metrics (workspace (handleRunChain env baseInput σ)))
      = ocr_pages (metrics (workspace σ))
    ∧ activeTab (handleRunChain env baseInput σ) = activeTab σ
    ∧ downloads (handleRunChain env baseInput σ) = downloads σ.
Proof.
  destruct (client env) as [u|e] eqn:Hc.
  - destruct (for_of_agents env (agentsRunConfig (workspace σ))
                (run_locals baseInput) (run_start σ)) as [[c v'] σ'] eqn:Hrun.
    rewrite (handleRunChain_loop _ _ _ _ _ _ _ Hc Hrun).
    destruct (for_of_agents_frame _ _ _ _ _ _ _ Hrun)
      as (ents & reqs & Hh & Hnew & Hr & Hd & Ht & Hw & Hrl).
    exists ents. rewrite run_finish_heap, run_finish_runLog, Hrl by done.
    destruct c; simpl; rewrite Hw; by repeat split.
  - rewrite (handleRunChain_client_throws _ _ _ _ Hc). exists [].
    simpl. by rewrite app_nil_r.
Qed.

Lemma handle_invariant (ev : Event) (σ : State) :
  session_invariant σ → session_invariant (handle ev σ).
Proof.
  intros (Hchars & [Hnodup Hvalid] & Hshared).
  unfold session_invariant, chars_invariant, runLog_wf in *.
  destruct ev as [env baseInput|index field value|index newOutput|file|newText| |t];
    simpl.
  - destruct (handleRunChain_frame env baseInput σ)
      as (ents & Hh & Hlog & Htext & Hag & Hcfg & Hch & _).
    rewrite Hh, Hlog, Htext, Hag, Hcfg, Hch.
    repeat split; try done.
    + apply NoDup_seq.
    + apply Forall_forall. intros l Hl%elem_of_seq. rewrite length_app. lia.
  - unfold handleRunConfigChange.
    destruct (if startsWith "params." field then _ else _) as [h|e] eqn:Hset;
      simpl; [|done].
    assert (List.length h = List.length (heap σ)) as Hlen.
    { destruct (startsWith "params." field).
      - destruct (get_prop _ _ _) as [params|]; [|done]. simpl in Hset.
        by eapply set_prop_length.
      - by eapply set_prop_length. }
    by rewrite Hlen.
  - unfold handleHandoffEdit.
    destruct (set_prop _ _ _ _) as [h|e] eqn:Hset; simpl; [|done].
    by rewrite (set_prop_length _ _ _ _ _ Hset).
  - destruct file as [file|]; simpl; [|done].
    assert (Hpdf : let σ' := state_of (handlePdfUpload file σ) in
              chars (metrics (workspace σ')) = js_length (rawText (workspace σ'))
              ∧ (NoDup (runLog (workspace σ'))
                 ∧ Forall (λ l, (l < List.length (heap σ'))%nat) (runLog (workspace σ')))
              ∧ agents (workspace σ') = agentsRunConfig (workspace σ')).
    { unfold handlePdfUpload. destruct (getDocument file); [|done].
      by destruct (ocr_loop _ _ _ _). }
    destruct (String.eqb _ _); [exact Hpdf|].
    by destruct (readAsText file).
  - unfold handleRawTextChange. destruct (activeTab σ); try done.
    by destruct (200 <? _).
  - done.
  - done.
Qed.

(** Every state of every session satisfies the invariant. *)
Lemma session_invariant_holds (prompt guidance : string) (evs : list Event) :
  session_invariant (session prompt guidance evs).
Proof.
  unfold session.
  assert (Hinit : session_invariant (initial_state prompt guidance)).
  { repeat split; simpl; [apply NoDup_nil_2|apply Forall_nil_2]. }
  revert Hinit. generalize (initial_state prompt guidance).
  induction evs as [|ev evs IH]; intros σ Hσ; simpl; [done|].
  apply IH. by apply handle_invariant.
Qed.

Lemma C7_handoff_edit_frame_witness :
  ∃ σ' l,
    handleHandoffEdit 1 (VStr "reviewed gaps") after_four_calls = Done σ'
    ∧ runLog (workspace after_four_calls) !! Z.to_nat 1 = Some l
    ∧ runLog (workspace σ') = runLog (workspace after_four_calls)
    ∧ deref (heap σ') l
      = <["output" := VStr "reviewed gaps"]> (deref (heap after_four_calls) l)
    ∧ prop (heap σ') l "latency" = prop (heap after_four_calls) l "latency"
    ∧ prop (heap σ') l "model" = prop (heap after_four_calls) l "model"
    ∧ prop (heap σ') l "agentName" = prop (heap after_four_calls) l "agentName"
    ∧ (∀ l', l' ≠ l → deref (heap σ') l' = deref (heap after_four_calls) l')
    ∧ (∀ j l', j ≠ Z.to_nat 1 → runLog (workspace after_four_calls) !! j = Some l' →
         deref (heap σ') l' = deref (heap after_four_calls) l')
    ∧ metrics (workspace σ') = metrics (workspace after_four_calls)
    ∧ requests σ' = requests after_four_calls.
Proof.
  apply (C7_handoff_edit_frame after_four_calls 1 (VStr "reviewed gaps")).
  - split; apply (bool_decide_unpack _); by vm_compute.
  - vm_compute. by split.
Defined.

(** * Further properties *)

(** ** Chain Executor: counts and outcomes *)

(** How far the loop gets: it finishes exactly when every agent has been
    logged, and a throw leaves at least one agent without an entry. *)
Lemma for_of_agents_count (env : RunEnv) (configs : list loc) :
  ∀ v σ c v' σ',
    for_of_agents env configs v σ = (c, v', σ') →
    match c with
    | Finished =>
        List.length (newRunLog v')
        = (List.length (newRunLog v) + List.length configs)%nat
    | Raised _ =>
        (List.length (newRunLog v) ≤ List.length (newRunLog v')
         < List.length (newRunLog v) + List.length configs)%nat
    end.
Proof.
  induction configs as [|a rest IH]; intros v σ c v' σ'; simpl.
  - intros [= <- <- <-]. lia.
  - destruct (build_request (heap σ) a (currentInput v)) as [request|e].
    2:{ intros [= <- <- <-]. lia. }
    destruct (response (calls env (List.length (newRunLog v)))) as [text|e].
    2:{ intros [= <- <- <-]. lia. }
    intros Hrun. apply IH in Hrun. simpl in Hrun. rewrite length_app in Hrun.
    simpl in Hrun. destruct c; lia.
Qed.


(** The only way building a request throws. *)
Lemma build_request_throws (h : list obj) (a : loc) (input : string) (e : JsError) :
  build_request h a input = Err e →
  prop h a "params" = VUndefined
  ∧ e = TypeError "Cannot read properties of undefined (reading 'temperature')".
Proof.
  unfold build_request. rewrite !get_prop_ref. simpl.
  destruct (prop h a "params") eqn:Hp; simpl; try done.
  by intros [= <-].
Qed.

Lemma build_request_undefined (h : list obj) (a : loc) (input : string) :
  prop h a "params" = VUndefined →
  build_request h a input
  = Err (TypeError "Cannot read properties of undefined (reading 'temperature')").
Proof.
  intros Hp. unfold build_request. rewrite !get_prop_ref. simpl. by rewrite Hp.
Qed.

(** The loop over a list in two parts: the second part runs from where the
    first one finished, and not at all if the first one threw. *)
Lemma for_of_agents_app (env : RunEnv) (xs ys : list loc) :
  ∀ v σ,
    for_of_agents env (xs ++ ys) v σ
    = match for_of_agents env xs v σ with
      | (Finished, v1, σ1) => for_of_agents env ys v1 σ1
      | (Raised e, v1, σ1) => (Raised e, v1, σ1)
      end.
Proof.
  induction xs as [|a xs IH]; intros v σ; simpl; [done|].
  destruct (build_request (heap σ) a (currentInput v)) as [request|e]; [|done].
  destruct (response (calls env (List.length (newRunLog v)))) as [text|e]; [|done].
  apply IH.
Qed.

(** What the loop throws, and where: the rejection of the call numbered by
    the entries logged so far, or the TypeError of reading through the
    missing [params] of the agent at that position. *)
Lemma for_of_agents_cause (env : RunEnv) (configs : list loc) :
  ∀ v σ e v' σ',
    for_of_agents env configs v σ = (Raised e, v', σ') →
    response (calls env (List.length (newRunLog v'))) = Rejected e
    ∨ (e = TypeError "Cannot read properties of undefined (reading 'temperature')"
       ∧ ∃ a, configs !! (List.length (newRunLog v') - List.length (newRunLog v))%nat
              = Some a
            ∧ prop (heap σ') a "params" = VUndefined).
Proof.
  induction configs as [|a rest IH]; intros v σ e v' σ'; simpl; [done|].
  destruct (build_request (heap σ) a (currentInput v)) as [request|e0] eqn:Hreq.
  2:{ intros [= <- <- <-]. right. apply build_request_throws in Hreq as [Hp ->].
      split; [done|]. exists a. by rewrite Nat.sub_diag. }
  destruct (response (calls env (List.length (newRunLog v)))) as [text|e0] eqn:Hresp.
  2:{ intros [= <- <- <-]. by left. }
  intros Hrun. pose proof (for_of_agents_count _ _ _ _ _ _ _ Hrun) as Hcount.
  apply IH in Hrun as [Hrej|(-> & b & Hb & Hparams)]; [by left|].
  right. split; [done|]. exists b. split; [|done]. simpl in Hb, Hcount.
  rewrite length_app in Hb, Hcount. simpl in Hb, Hcount.
  replace (List.length (newRunLog v') - List.length (newRunLog v))%nat
    with (S (List.length (newRunLog v') - (List.length (newRunLog v) + 1)))%nat
    by lia.
  done.
Qed.


(** X2: the message a run leaves in [error] is the message of what stopped
    it: the constructor of the client, or the rejection of the call that
    follows the last logged entry, or the TypeError of reading [temperature]
    through the missing [params] of the agent at that position. *)
Theorem X2_run_error_cause (env : RunEnv) (baseInput : string) (σ : State)
    (m : string) :
  error (workspace (handleRunChain env baseInput σ)) = Some m →
  (∃ e, client env = Err e ∧ m = message e)
  ∨ (∃ e, response (calls env
             (List.length (runLog (workspace (handleRunChain env baseInput σ)))))
          = Rejected e
        ∧ m = message e)
  ∨ (m = "Cannot read properties of undefined (reading 'temperature')"
     ∧ ∃ a, agentsRunConfig (workspace σ)
              !! List.length (runLog (workspace (handleRunChain env baseInput σ)))
            = Some a
          ∧ prop (heap (handleRunChain env baseInput σ)) a "params" = VUndefined).
Proof.
  destruct (client env) as [u|e] eqn:Hc.
  - destruct (for_of_agents env (agentsRunConfig (workspace σ))
                (run_locals baseInput) (run_start σ)) as [[c v'] σ'] eqn:Hrun.
    rewrite (handleRunChain_loop _ _ _ _ _ _ _ Hc Hrun).
    destruct (for_of_agents_frame _ _ _ _ _ _ _ Hrun)
      as (ents & reqs & Hh & Hnew & Hr & Hd & Ht & Hw & Hrl).
    specialize (Hrl eq_refl). rewrite run_finish_runLog, run_finish_heap, Hrl.
    destruct c as [|e]; simpl.
    + by rewrite Hw.
    + intros [= <-]. right.
      destruct (for_of_agents_cause _ _ _ _ _ _ _ Hrun)
        as [Hrej|(-> & a & Ha & Hp)].
      * left. by exists e.
      * right. split; [done|]. exists a. simpl in Ha.
        by rewrite Nat.sub_0_r in Ha.
  - rewrite (handleRunChain_client_throws _ _ _ _ Hc). simpl.
    intros [= <-]. left. by exists e.
Qed.

Lemma X2_run_error_cause_witness :
  (∃ e, client second_call_fails = Err e ∧ "503 Service Unavailable" = message e)
  ∨ (∃ e, response (calls second_call_fails
             (List.length (runLog (workspace
                (handleRunChain second_call_fails "guidance" (initial_state "" ""))))))
          = Rejected e
        ∧ "503 Service Unavailable" = message e)
  ∨ ("503 Service Unavailable"
     = "Cannot read properties of undefined (reading 'temperature')"
     ∧ ∃ a, agentsRunConfig (workspace (initial_state "" ""))
              !! List.length (runLog (workspace
                   (handleRunChain second_call_fails "guidance" (initial_state "" ""))))
            = Some a
          ∧ prop (heap (handleRunChain second_call_fails "guidance"
                          (initial_state "" ""))) a "params" = VUndefined).
Proof.
  apply (X2_run_error_cause second_call_fails "guidance" (initial_state "" "")
           "503 Service Unavailable").
  reflexivity.
Defined.

(** X3: when constructing the client throws, no agent is invoked: the run
    issues no request, allocates nothing, leaves an empty run log and zero
    counters, and reports the constructor's message. *)
Theorem X3_client_failure_runs_no_agent (env : RunEnv) (baseInput : string)
    (σ : State) (e : JsError) :
  client env = Err e →
  requests (handleRunChain env baseInput σ) = requests σ
  ∧ heap (handleRunChain env baseInput σ) = heap σ
  ∧ runLog (workspace (handleRunChain env baseInput σ)) = []
  ∧ error (workspace (handleRunChain env baseInput σ)) = Some (message e)
  ∧ isRunning (workspace (handleRunChain env baseInput σ)) = false
  ∧ agents_run (metrics (workspace (handleRunChain env baseInput σ))) = 0
  ∧ latency (metrics (workspace (handleRunChain env baseInput σ))) = 0%float
  ∧ rawText (workspace (handleRunChain env baseInput σ)) = rawText (workspace σ)
  ∧ chars (metrics (workspace (handleRunChain env baseInput σ)))
    = chars (metrics (workspace σ)).
Proof.
  intros Hc. by rewrite (handleRunChain_client_throws _ _ _ _ Hc).
Qed.

Lemma X3_client_failure_runs_no_agent_witness :
  requests (handleRunChain client_unavailable "guidance" after_four_calls)
  = requests after_four_calls
  ∧ heap (handleRunChain client_unavailable "guidance" after_four_calls)
    = heap after_four_calls
  ∧ runLog (workspace (handleRunChain client_unavailable "guidance" after_four_calls))
    = []
  ∧ error (workspace (handleRunChain client_unavailable "guidance" after_four_calls))
    = Some "An API Key must be set when running in a browser"
  ∧ isRunning (workspace (handleRunChain client_unavailable "guidance" after_four_calls))
    = false
  ∧ agents_run (metrics (workspace
      (handleRunChain client_unavailable "guidance" after_four_calls))) = 0
  ∧ latency (metrics (workspace
      (handleRunChain client_unavailable "guidance" after_four_calls))) = 0%float
  ∧ rawText (workspace (handleRunChain client_unavailable "guidance" after_four_calls))
    = rawText (workspace after_four_calls)
  ∧ chars (metrics (workspace
      (handleRunChain client_unavailable "guidance" after_four_calls)))
    = chars (metrics (workspace after_four_calls)).
Proof.
  apply (X3_client_failure_runs_no_agent client_unavailable "guidance"
           after_four_calls
           {| err_name := "Error";
              message := "An API Key must be set when running in a browser" |}).
  reflexivity.
Defined.

(** X4: an agent whose [params] is [undefined] stops the chain before its
    call is made: when the [k] agents before it have [params] and their calls
    resolve, the run issues exactly [k] requests, logs [k] entries, and
    reports the TypeError of reading [temperature] through [undefined]. *)
Theorem X4_missing_params_stops_before_call (env : RunEnv) (baseInput : string)
    (σ : State) (u : unit) (k : nat) (a : loc) :
  client env = Ok u →
  agentsRunConfig (workspace σ) !! k = Some a →
  (a < List.length (heap σ))%nat →
  prop (heap σ) a "params" = VUndefined →
  (∀ j b, (j < k)%nat → agentsRunConfig (workspace σ) !! j = Some b →
     params_defined (heap σ) b) →
  (∀ j, (j < k)%nat → ∃ text, response (calls env j) = Resolved text) →
  ∃ reqs,
    requests (handleRunChain env baseInput σ) = requests σ ++ reqs
    ∧ List.length reqs = k
    ∧ List.length (runLog (workspace (handleRunChain env baseInput σ))) = k
    ∧ error (workspace (handleRunChain env baseInput σ))
      = Some "Cannot read properties of undefined (reading 'temperature')"
    ∧ agents_run (metrics (workspace (handleRunChain env baseInput σ))) = Z.of_nat k
    ∧ isRunning (workspace (handleRunChain env baseInput σ)) = false.
Proof.
  intros Hc Ha Hstore Hp Hdef Hres.
  pose proof (lookup_lt_Some _ _ _ Ha) as Hk.
  assert (Hlen : List.length (take k (agentsRunConfig (workspace σ))) = k)
    by (rewrite length_take; lia).
  destruct (for_of_agents_prefix env (take k (agentsRunConfig (workspace σ)))
              (run_locals baseInput) (run_start σ) k
              {| err_name := ""; message := "" |})
    as (v1 & σ1 & Hrun1 & Hlog1 & Hreqs1 & _).
  { intros j b Hj Hb. apply lookup_take_Some in Hb as [Hb Hjk]. by apply (Hdef j b). }
  { lia. }
  { intros j Hj. by apply Hres. }
  { lia. }
  rewrite Hlen in Hrun1, Hreqs1.
  destruct (decide (k = k)) as [_|]; [|done].
  destruct (for_of_agents_frame _ _ _ _ _ _ _ Hrun1)
    as (ents & reqs & Hh & Hnew & Hr & Hd & Ht & Hw & Hrl).
  specialize (Hrl eq_refl). simpl in Hh, Hr, Hlog1, Hreqs1.
  assert (Hrun : for_of_agents env (agentsRunConfig (workspace σ))
                   (run_locals baseInput) (run_start σ)
                 = (Raised (TypeError
                      "Cannot read properties of undefined (reading 'temperature')"),
                    v1, σ1)).
  { rewrite <- (take_drop_middle _ _ _ Ha) at 1.
    rewrite for_of_agents_app, Hrun1. simpl.
    rewrite build_request_undefined; [done|].
    rewrite Hh. by rewrite prop_app_l. }
  rewrite (handleRunChain_loop _ _ _ _ _ _ _ Hc Hrun).
  exists reqs. rewrite run_finish_requests, run_finish_runLog, Hrl. simpl.
  rewrite Hr, length_app in Hreqs1.
  repeat split; try done; lia.
Qed.

Lemma X4_missing_params_stops_before_call_witness :
  ∃ reqs,
    requests (handleRunChain four_calls_1004ms "guidance" second_agent_without_params)
    = requests second_agent_without_params ++ reqs
    ∧ List.length reqs = 1%nat
    ∧ List.length (runLog (workspace
        (handleRunChain four_calls_1004ms "guidance" second_agent_without_params)))
      = 1%nat
    ∧ error (workspace
        (handleRunChain four_calls_1004ms "guidance" second_agent_without_params))
      = Some "Cannot read properties of undefined (reading 'temperature')"
    ∧ agents_run (metrics (workspace
        (handleRunChain four_calls_1004ms "guidance" second_agent_without_params)))
      = Z.of_nat 1
    ∧ isRunning (workspace
        (handleRunChain four_calls_1004ms "guidance" second_agent_without_params))
      = false.
Proof.
  apply (X4_missing_params_stops_before_call four_calls_1004ms "guidance"
           second_agent_without_params tt 1 2%nat).
  - reflexivity.
  - reflexivity.
  - vm_compute. lia.
  - by vm_compute.
  - intros [|j] b Hj; [|lia]. intros [= <-]. by vm_compute.
  - intros [|j] Hj; [|lia]. eexists. reflexivity.
Defined.

(** X5: a run starts a new log: none of the entries logged before it is an
    entry of the log it leaves, the old entries stay in the store as they
    were, and the new log is again made of distinct objects of the store. *)
Theorem X5_run_starts_new_log (env : RunEnv) (baseInput : string) (σ : State) :
  runLog_wf σ →
  runLog_wf (handleRunChain env baseInput σ)
  ∧ ∀ l, l ∈ runLog (workspace σ) →
      (l ∉ runLog (workspace (handleRunChain env baseInput σ)))
      ∧ deref (heap (handleRunChain env baseInput σ)) l = deref (heap σ) l.
Proof.
  intros [Hnodup Hvalid].
  destruct (handleRunChain_frame env baseInput σ) as (ents & Hh & Hlog & _).
  unfold runLog_wf. rewrite Hlog. split; [split|].
  - apply NoDup_seq.
  - rewrite Hh. apply Forall_forall. intros l Hl%elem_of_seq.
    rewrite length_app. lia.
  - intros l Hl. rewrite Forall_forall in Hvalid. specialize (Hvalid l Hl).
    split.
    + intros Hin%elem_of_seq. lia.
    + rewrite Hh. by apply deref_app_l.
Qed.

Lemma X5_run_starts_new_log_witness :
  runLog_wf (handleRunChain second_call_fails "gaps only" after_four_calls)
  ∧ ∀ l, l ∈ runLog (workspace after_four_calls) →
      (l ∉ runLog (workspace (handleRunChain second_call_fails "gaps only" after_four_calls)))
      ∧ deref (heap (handleRunChain second_call_fails "gaps only" after_four_calls)) l
        = deref (heap after_four_calls) l.
Proof.
  apply (X5_run_starts_new_log second_call_fails "gaps only" after_four_calls).
  split; apply (bool_decide_unpack _); by vm_compute.
Defined.

(** ** What is published, run in progress or not *)

Lemma settles_idle (σ : State) (n : nat) :
  foldl (λ p t, take_turn t p) (σ, None) (replicate n Settles) = (σ, None).
Proof. induction n as [|n IH]; [done|]. exact IH. Qed.

(** A loop that nothing interrupts: settling its calls one after the other
    gives what [for_of_agents] gives, ended by [catch] and [finally]. *)
Lemma advance_uninterrupted (env : RunEnv) (configs : list loc) :
  ∀ v σ c v' σ',
    for_of_agents env configs v σ = (c, v', σ') →
    foldl (λ p t, take_turn t p) (advance env configs v σ)
      (replicate (List.length configs) Settles)
    = (run_finish c v' σ', None).
Proof.
  induction configs as [|a rest IH]; intros v σ c v' σ'; simpl.
  - by intros [= <- <- <-].
  - destruct (build_request (heap σ) a (currentInput v)) as [request|e].
    2:{ intros [= <- <- <-]. apply (settles_idle _ (List.length rest)). }
    cbn [fst snd]. unfold settle. cbn [pending_env pending_agent pending_rest pending_locals].
    destruct (response (calls env (List.length (newRunLog v)))) as [text|e].
    2:{ intros [= <- <- <-]. apply (settles_idle _ (List.length rest)). }
    intros Hrun. by apply IH.
Qed.

(** A run that nothing interrupts publishes, after its last call has
    settled, the state [handleRunChain] gives. *)
Lemma run_uninterrupted (env : RunEnv) (baseInput : string) (σ : State) :
  isRunning (workspace σ) = false →
  foldl (λ p t, take_turn t p) (σ, None)
    (Fires (RunChain env baseInput)
     :: replicate (List.length (agentsRunConfig (workspace σ))) Settles)
  = (handleRunChain env baseInput σ, None).
Proof.
  intros Hidle. simpl. rewrite Hidle. unfold begin_run.
  destruct (client env) as [u|e] eqn:Hc.
  - destruct (for_of_agents env (agentsRunConfig (workspace σ))
                (run_locals baseInput) (run_start σ)) as [[c v'] σ'] eqn:Hrun.
    rewrite (handleRunChain_loop _ _ _ _ _ _ _ Hc Hrun).
    by apply advance_uninterrupted.
  - rewrite (handleRunChain_client_throws _ _ _ _ Hc). apply settles_idle.
Qed.

(** No handler but the run touches the run log, [isRunning], [agents_run]
    or the agent lists, and none makes [ocr_pages] negative. *)
Lemma event_keeps_run (ev : Event) (σ : State) :
  match ev with
  | RunChain _ _ => True
  | _ =>
      runLog (workspace (handle ev σ)) = runLog (workspace σ)
      ∧ isRunning (workspace (handle ev σ)) = isRunning (workspace σ)
      ∧ agents_run (metrics (workspace (handle ev σ)))
        = agents_run (metrics (workspace σ))
      ∧ agentsRunConfig (workspace (handle ev σ)) = agentsRunConfig (workspace σ)
      ∧ agents (workspace (handle ev σ)) = agents (workspace σ)
      ∧ (0 ≤ ocr_pages (metrics (workspace σ)) →
         0 ≤ ocr_pages (metrics (workspace (handle ev σ))))
  end.
Proof.
  destruct ev as [env baseInput|index field value|index newOutput|file|newText| |t];
    simpl; try done.
  - unfold handleRunConfigChange.
    by destruct (if startsWith "params." field then _ else _).
  - unfold handleHandoffEdit. by destruct (set_prop _ _ _ _).
  - destruct file as [file|]; simpl; [|done].
    assert (Hpdf : let σ' := state_of (handlePdfUpload file σ) in
              runLog (workspace σ') = runLog (workspace σ)
              ∧ isRunning (workspace σ') = isRunning (workspace σ)
              ∧ agents_run (metrics (workspace σ')) = agents_run (metrics (workspace σ))
              ∧ agentsRunConfig (workspace σ') = agentsRunConfig (workspace σ)
              ∧ agents (workspace σ') = agents (workspace σ)
              ∧ (0 ≤ ocr_pages (metrics (workspace σ)) →
                 0 ≤ ocr_pages (metrics (workspace σ')))).
    { unfold handlePdfUpload. destruct (getDocument file); [|done].
      destruct (ocr_loop _ _ _ _); simpl; [|done].
      repeat split; try done. intros _. lia. }
    destruct (String.eqb _ _); [exact Hpdf|].
    by destruct (readAsText file).
  - unfold handleRawTextChange. destruct (activeTab σ); try done.
    by destruct (200 <? _).
Qed.

(** The end of a run, reached from a state in which the run's own list is
    the run log on the screen. *)
Lemma run_finish_invariant (c : Completion) (v : RunLocals) (σ : State) :
  chars_invariant σ →
  runLog_wf σ →
  agentsRunConfig (workspace σ) = initialAgents →
  agents (workspace σ) = initialAgents →
  0 ≤ ocr_pages (metrics (workspace σ)) →
  runLog (workspace σ) = newRunLog v →
  (List.length (newRunLog v) ≤ 4)%nat →
  published_invariant (run_finish c v σ, None).
Proof.
  intros Hchars Hwf Hcfg Hag Hocr Hlog Hlen.
  unfold published_invariant, chars_invariant, runLog_wf in *.
  rewrite Hlog in Hwf. destruct Hwf as [Hnodup Hvalid].
  destruct c; simpl; rewrite Hlog; repeat split; try done; lia.
Qed.

Lemma advance_invariant (env : RunEnv) (configs : list loc) (v : RunLocals)
    (σ : State) :
  chars_invariant σ →
  runLog_wf σ →
  agentsRunConfig (workspace σ) = initialAgents →
  agents (workspace σ) = initialAgents →
  0 ≤ ocr_pages (metrics (workspace σ)) →
  0 ≤ agents_run (metrics (workspace σ)) ≤ 4 →
  isRunning (workspace σ) = true →
  runLog (workspace σ) = newRunLog v →
  (List.length (newRunLog v) + List.length configs ≤ 4)%nat →
  published_invariant (advance env configs v σ).
Proof.
  intros Hchars Hwf Hcfg Hag Hocr Hrun Hbusy Hlog Hlen.
  destruct configs as [|a rest]; simpl in *.
  - apply run_finish_invariant; try done. lia.
  - destruct (build_request (heap σ) a (currentInput v)) as [request|e].
    + destruct Hwf as [Hnodup Hvalid]. destruct Hrun as [Hlo Hhi].
      unfold published_invariant, runLog_wf. simpl. repeat split; try done; lia.
    + apply run_finish_invariant; try done. lia.
Qed.

Lemma begin_run_invariant (env : RunEnv) (baseInput : string) (σ : State) :
  published_invariant (σ, None) →
  published_invariant (begin_run env baseInput σ).
Proof.
  intros (Hchars & [Hnodup Hvalid] & Hcfg & Hag & Hocr & Hrun & _).
  simpl in *. unfold begin_run.
  assert (Hwf : runLog_wf (run_start σ)).
  { split; simpl; [apply NoDup_nil_2|apply Forall_nil_2]. }
  destruct (client env) as [u|e].
  - apply advance_invariant; try done. rewrite Hcfg. simpl. lia.
  - apply run_finish_invariant; try done. simpl. lia.
Qed.

Lemma settle_invariant (r : Pending) (σ : State) :
  published_invariant (σ, Some r) →
  published_invariant (settle r σ).
Proof.
  intros (Hchars & [Hnodup Hvalid] & Hcfg & Hag & Hocr & Hrun & Hbusy & Hlog & Hlen).
  simpl in *. unfold settle.
  destruct (response (calls (pending_env r)
              (List.length (newRunLog (pending_locals r))))) as [text|e].
  - unfold record_step, alloc. apply advance_invariant; simpl; try done.
    + rewrite <- Hlog. split; simpl.
      * apply NoDup_app. split; [done|]. split; [|apply NoDup_singleton].
        intros l Hl Hin%list_elem_of_singleton. subst l.
        rewrite Forall_forall in Hvalid. specialize (Hvalid _ Hl). simpl in Hvalid. lia.
      * rewrite length_app. apply Forall_app. split.
        -- eapply Forall_impl; [exact Hvalid|]. simpl. intros; lia.
        -- apply Forall_singleton. simpl. lia.
    + rewrite length_app. simpl. lia.
  - apply run_finish_invariant; try done. lia.
Qed.

Lemma take_turn_invariant (t : Turn) (p : Published) :
  published_invariant p → published_invariant (take_turn t p).
Proof.
  intros Hp. destruct p as [σ run]. destruct t as [ev|]; simpl.
  - assert (Hev : match ev with
                  | RunChain _ _ => True
                  | _ => published_invariant (handle ev σ, run)
                  end).
    { pose proof (event_keeps_run ev σ) as Hkeep.
      pose proof (handle_invariant ev σ) as Hinv.
      destruct Hp as (Hchars & Hwf & Hcfg & Hag & Hocr & Hrun & Hmode).
      cbn [fst snd] in *.
      destruct Hinv as (Hchars' & Hwf' & _);
        [split; [done|split; [done|by rewrite Hag, Hcfg]]|].
      destruct ev; try done;
        destruct Hkeep as (Hlog & Hbusy & Hcount & Hcfg' & Hag' & Hocr');
        unfold published_invariant; cbn [fst snd];
        rewrite Hlog, Hbusy, Hcount, Hcfg', Hag';
        (split; [done|]); (split; [done|]); (split; [done|]); (split; [done|]);
        (split; [by apply Hocr'|]); (split; [done|]); done. }
    destruct ev as [env baseInput|index field value|index newOutput|file|newText| |t];
      try exact Hev.
    destruct (isRunning (workspace σ)) eqn:Hbusy; [done|].
    apply begin_run_invariant.
    destruct run as [r|]; [|done].
    destruct Hp as (_ & _ & _ & _ & _ & _ & Hbusy' & _). simpl in Hbusy'. congruence.
  - destruct run as [r|]; [|done]. by apply settle_invariant.
Qed.

Lemma published_invariant_holds (prompt guidance : string) (turns : list Turn) :
  published_invariant (published prompt guidance turns).
Proof.
  unfold published.
  assert (Hinit : published_invariant (initial_state prompt guidance, None)).
  { unfold published_invariant, chars_invariant, runLog_wf. simpl.
    repeat split; try done; try lia; try apply NoDup_nil_2; try apply Forall_nil_2. }
  revert Hinit. generalize (initial_state prompt guidance, @None Pending).
  induction turns as [|t turns IH]; intros p Hp; simpl; [done|].
  apply IH. by apply take_turn_invariant.
Qed.

(** The states between runs are among the published ones: each state of a
    session is published by the turns in which its runs go uninterrupted. *)
Lemma session_published (prompt guidance : string) (evs : list Event) :
  ∃ turns, published prompt guidance turns = (session prompt guidance evs, None).
Proof.
  induction evs as [|ev evs IH] using rev_ind.
  - by exists [].
  - destruct IH as [turns Hturns].
    pose proof (published_invariant_holds prompt guidance turns) as Hinv.
    rewrite Hturns in Hinv.
    destruct Hinv as (_ & _ & _ & _ & _ & _ & Hidle & _). simpl in Hidle.
    unfold session. rewrite foldl_app. simpl. fold (session prompt guidance evs).
    destruct ev as [env baseInput|index field value|index newOutput|file|newText| |t].
    1:{ exists (turns ++ Fires (RunChain env baseInput)
                  :: replicate (List.length (agentsRunConfig
                       (workspace (session prompt guidance evs)))) Settles).
        unfold published in *. rewrite foldl_app, Hturns.
        by apply run_uninterrupted. }
    all: match goal with
         | |- ∃ _, _ = (handle ?ev _, _) => exists (turns ++ [Fires ev])
         end;
      unfold published in *; rewrite foldl_app, Hturns; reflexivity.
Qed.

(** While a run is in progress the counters are still those of the run
    before: after a run of four agents and a second click, the run log on
    the screen is empty, [isRunning] is set and [agents_run] is 4. *)
Lemma published_during_second_run :
  isRunning (workspace (on_screen (published "" ""
    (Fires (RunChain four_calls_1004ms "guidance") :: replicate 4 Settles
     ++ [Fires (RunChain four_calls_1004ms "guidance")])))) = true
  ∧ runLog (workspace (on_screen (published "" ""
      (Fires (RunChain four_calls_1004ms "guidance") :: replicate 4 Settles
       ++ [Fires (RunChain four_calls_1004ms "guidance")])))) = []
  ∧ agents_run (metrics (workspace (on_screen (published "" ""
      (Fires (RunChain four_calls_1004ms "guidance") :: replicate 4 Settles
       ++ [Fires (RunChain four_calls_1004ms "guidance")]))))) = 4
  ∧ in_progress (published "" ""
      (Fires (RunChain four_calls_1004ms "guidance") :: replicate 4 Settles
       ++ [Fires (RunChain four_calls_1004ms "guidance")])) ≠ None.
Proof. repeat split; by vm_compute. Qed.

(** X6: in everything the component publishes, with a run in progress or
    not and whatever handlers are called meanwhile: [metrics.chars] is the
    length of [rawText]; the run-log entries are distinct objects of the
    store, four at most; both agent lists are the four initial references,
    in their order; [ocr_pages] is not negative and [agents_run] lies
    between 0 and 4; [isRunning] is set exactly while a run is in progress;
    and whenever it is clear, [agents_run] is the length of the run log
    (while it is set, [agents_run] still counts the run before). *)
Theorem X6_published_state_invariants (prompt guidance : string)
    (turns : list Turn) :
  chars_invariant (on_screen (published prompt guidance turns))
  ∧ runLog_wf (on_screen (published prompt guidance turns))
  ∧ (List.length (runLog (workspace (on_screen (published prompt guidance turns))))
     ≤ 4)%nat
  ∧ agentsRunConfig (workspace (on_screen (published prompt guidance turns)))
    = [0; 2; 4; 6]%nat
  ∧ agents (workspace (on_screen (published prompt guidance turns)))
    = [0; 2; 4; 6]%nat
  ∧ 0 ≤ ocr_pages (metrics (workspace (on_screen (published prompt guidance turns))))
  ∧ 0 ≤ agents_run (metrics (workspace (on_screen (published prompt guidance turns))))
    ≤ 4
  ∧ (isRunning (workspace (on_screen (published prompt guidance turns))) = false
     ↔ in_progress (published prompt guidance turns) = None)
  ∧ (isRunning (workspace (on_screen (published prompt guidance turns))) = false →
     agents_run (metrics (workspace (on_screen (published prompt guidance turns))))
     = Z.of_nat (List.length
         (runLog (workspace (on_screen (published prompt guidance turns)))))).
Proof.
  destruct (published_invariant_holds prompt guidance turns)
    as (Hchars & Hwf & Hcfg & Hag & Hocr & Hrun & Hmode).
  unfold on_screen, in_progress.
  destruct (published prompt guidance turns) as [σ run]. simpl in *.
  split; [done|]. split; [done|].
  destruct run as [r|].
  - destruct Hmode as (Hbusy & Hlog & Hlen). rewrite Hlog, Hbusy.
    repeat split; try done; lia.
  - destruct Hmode as (Hidle & Hcount). rewrite Hidle.
    repeat split; try done; lia.
Qed.

(** ** The page: what its controls can do *)

Lemma initialAgents_lookup (i : nat) :
  (i < 4)%nat → initialAgents !! i = Some (2 * i)%nat.
Proof. intros Hi. destruct i as [|[|[|[|i]]]]; try done. lia. Qed.

Lemma initialAgents_lookup_inv (i : nat) (a : loc) :
  initialAgents !! i = Some a → (i < 4)%nat ∧ a = (2 * i)%nat.
Proof.
  intros Ha. destruct i as [|[|[|[|i]]]]; simpl in Ha; try (by inversion Ha).
  all: injection Ha as <-; split; lia.
Qed.

(** Replacing one object of the store keeps the agents intact as long as an
    agent object keeps its [params] property. *)
Lemma agents_intact_insert (σ σ' : State) (p : loc) (o : obj) :
  agents_intact σ →
  heap σ' = <[p := o]> (heap σ) →
  runLog (workspace σ') = runLog (workspace σ) →
  agentsRunConfig (workspace σ') = agentsRunConfig (workspace σ) →
  (∀ j, (j < 4)%nat → p = (2 * j)%nat → o !! "params" = Some (VRef (2 * j + 1)%nat)) →
  agents_intact σ'.
Proof.
  intros (Hcfg & Hlen & Hparams & Hnodup & Hlog) Hh Hrl Hc Ho.
  unfold agents_intact. rewrite Hh, Hrl, Hc, length_insert.
  repeat split; try done.
  intros j Hj. destruct (decide (p = (2 * j)%nat)) as [->|Hne].
  - unfold prop. rewrite deref_insert_eq by lia. by rewrite (Ho j Hj eq_refl).
  - unfold prop. rewrite deref_insert_ne by done. by apply Hparams.
Qed.

(** On intact agents an edit of a top-level field other than [params], at an
    index of the list, returns normally, having replaced that property of
    the agent's object. *)
Lemma top_level_edit_intact (σ : State) (i : nat) (field : string) (value : val) :
  agents_intact σ →
  (i < 4)%nat →
  startsWith "params." field = false →
  field ≠ "params" →
  handleRunConfigChange (Z.of_nat i) field value σ
  = Done (setWorkspace (with_agentsRunConfig (agentsRunConfig (workspace σ)))
            (with_heap (<[(2 * i)%nat := <[field := value]> (deref (heap σ) (2 * i)%nat)]>
                          (heap σ)) σ))
  ∧ agents_intact (state_of (handleRunConfigChange (Z.of_nat i) field value σ)).
Proof.
  intros Hσ Hi Hfield Hne.
  pose proof Hσ as (Hcfg & Hlen & Hparams & _).
  assert (Heq : handleRunConfigChange (Z.of_nat i) field value σ
                = Done (setWorkspace (with_agentsRunConfig (agentsRunConfig (workspace σ)))
                          (with_heap (<[(2 * i)%nat := <[field := value]>
                                          (deref (heap σ) (2 * i)%nat)]> (heap σ)) σ))).
  { unfold handleRunConfigChange.
    rewrite Hfield, (array_get_in_range _ i (2 * i)%nat)
      by (rewrite Hcfg; by apply initialAgents_lookup).
    done. }
  split; [done|]. rewrite Heq. simpl.
  eapply (agents_intact_insert σ); [done|reflexivity|done|done|].
  intros j Hj Hp. assert (j = i) as -> by lia.
  rewrite lookup_insert_ne by done.
  specialize (Hparams i Hi). unfold prop in Hparams.
  destruct (deref (heap σ) (2 * i)%nat !! "params") as [w|] eqn:Hw;
    simpl in Hparams; by subst.
Qed.

(** On intact agents an edit of [params.<key>], at an index of the list,
    returns normally, having written the key named by the second segment of
    the field into the agent's [params] object. *)
Lemma params_edit_intact (σ : State) (i : nat) (field : string) (value : val) :
  agents_intact σ →
  (i < 4)%nat →
  startsWith "params." field = true →
  handleRunConfigChange (Z.of_nat i) field value σ
  = Done (setWorkspace (with_agentsRunConfig (agentsRunConfig (workspace σ)))
            (with_heap (<[(2 * i + 1)%nat :=
                            <[default "undefined" (split "." field !! 1%nat) := value]>
                              (deref (heap σ) (2 * i + 1)%nat)]> (heap σ)) σ))
  ∧ agents_intact (state_of (handleRunConfigChange (Z.of_nat i) field value σ)).
Proof.
  intros Hσ Hi Hfield.
  pose proof Hσ as (Hcfg & Hlen & Hparams & _).
  assert (Heq : handleRunConfigChange (Z.of_nat i) field value σ
                = Done (setWorkspace (with_agentsRunConfig (agentsRunConfig (workspace σ)))
                          (with_heap (<[(2 * i + 1)%nat :=
                             <[default "undefined" (split "." field !! 1%nat) := value]>
                               (deref (heap σ) (2 * i + 1)%nat)]> (heap σ)) σ))).
  { unfold handleRunConfigChange.
    rewrite Hfield, (array_get_in_range _ i (2 * i)%nat)
      by (rewrite Hcfg; by apply initialAgents_lookup).
    rewrite get_prop_ref. cbn [res_bind]. by rewrite (Hparams i Hi). }
  split; [done|]. rewrite Heq. simpl.
  eapply (agents_intact_insert σ); [done|reflexivity|done|done|].
  intros j Hj Hp. lia.
Qed.

(** An edit of the output of an existing entry, on a log of store objects,
    returns normally, having replaced that property of the entry. *)
Lemma handoff_edit_in_range (σ : State) (i : nat) (l : loc) (value : val) :
  runLog (workspace σ) !! i = Some l →
  handleHandoffEdit (Z.of_nat i) value σ
  = Done (setWorkspace (with_runLog (runLog (workspace σ)))
            (with_heap (<[l := <["output" := value]> (deref (heap σ) l)]> (heap σ)) σ)).
Proof.
  intros Hl. unfold handleHandoffEdit.
  by rewrite (array_get_in_range _ _ _ Hl).
Qed.

Lemma click_agents_intact (c : Control) (σ : State) :
  agents_intact σ → agents_intact (state_of (click c σ)).
Proof.
  intros Hσ. unfold click. destruct (rendered σ c) eqn:Hr; [|done].
  pose proof Hσ as (Hcfg & Hlen & Hparams & Hnodup & Hlog).
  destruct c as [t|file|newText|i o|i x|i x|i x|env input|i x|]; simpl in *.
  - done.
  - destruct file as [file|]; simpl; [|done].
    assert (Hpdf : agents_intact (state_of (handlePdfUpload file σ))).
    { unfold handlePdfUpload. destruct (getDocument file); [|done].
      by destruct (ocr_loop _ _ _ _). }
    destruct (String.eqb _ _); [exact Hpdf|].
    by destruct (readAsText file).
  - unfold handleRawTextChange. destruct (activeTab σ); try done.
    by destruct (200 <? _).
  - apply andb_prop in Hr as [_ Hi%bool_decide_eq_true].
    rewrite Hcfg in Hi. by apply top_level_edit_intact.
  - apply andb_prop in Hr as [_ Hi%bool_decide_eq_true].
    rewrite Hcfg in Hi. by apply params_edit_intact.
  - apply andb_prop in Hr as [_ Hi%bool_decide_eq_true].
    rewrite Hcfg in Hi. by apply params_edit_intact.
  - apply andb_prop in Hr as [_ Hi%bool_decide_eq_true].
    rewrite Hcfg in Hi. by apply top_level_edit_intact.
  - destruct (handleRunChain_frame env input σ)
      as (ents & Hh & Hrl & _ & _ & Hcfg' & _).
    unfold agents_intact. rewrite Hh, Hrl, Hcfg', length_app.
    split; [done|]. split; [lia|]. split; [|split].
    + intros j Hj. rewrite prop_app_l by lia. by apply Hparams.
    + apply NoDup_seq.
    + apply Forall_forall. intros l Hl%elem_of_seq. lia.
  - apply andb_prop in Hr as [_ Hi%bool_decide_eq_true].
    destruct (lookup_lt_is_Some_2 _ _ Hi) as [l Hl].
    rewrite (handoff_edit_in_range _ _ _ _ Hl). simpl.
    eapply (agents_intact_insert σ); [done|reflexivity|done|done|].
    intros j Hj ->. rewrite Forall_forall in Hlog.
    assert (l' := Hlog _ (list_elem_of_lookup_2 _ _ _ Hl)). simpl in l'. lia.
  - done.
Qed.

Lemma initial_agents_intact (prompt guidance : string) :
  agents_intact (initial_state prompt guidance).
Proof.
  split; [done|]. split; [simpl; lia|]. split; [|split].
  - intros i Hi. destruct i as [|[|[|[|i]]]]; try done. lia.
  - apply NoDup_nil_2.
  - apply Forall_nil_2.
Qed.

Lemma ui_session_intact (prompt guidance : string) (cs : list Control) :
  agents_intact (ui_session prompt guidance cs).
Proof.
  unfold ui_session.
  generalize (initial_agents_intact prompt guidance).
  generalize (initial_state prompt guidance).
  induction cs as [|c cs IH]; intros σ Hσ; simpl; [done|].
  apply IH. by apply click_agents_intact.
Qed.

(** Every entry the loop logged stands for a call that resolved. *)
Lemma for_of_agents_resolved (env : RunEnv) (configs : list loc) :
  ∀ v σ c v' σ',
    for_of_agents env configs v σ = (c, v', σ') →
    ∀ j, (List.length (newRunLog v) ≤ j < List.length (newRunLog v'))%nat →
      ∃ text, response (calls env j) = Resolved text.
Proof.
  induction configs as [|a rest IH]; intros v σ c v' σ'; simpl.
  - intros [= <- <- <-] j Hj. lia.
  - destruct (build_request (heap σ) a (currentInput v)) as [request|e].
    2:{ intros [= <- <- <-] j Hj. lia. }
    destruct (response (calls env (List.length (newRunLog v)))) as [text|e] eqn:Hresp.
    2:{ intros [= <- <- <-] j Hj. lia. }
    intros Hrun j Hj.
    destruct (decide (j = List.length (newRunLog v))) as [->|Hne]; [by exists text|].
    apply (IH _ _ _ _ _ Hrun). simpl. rewrite length_app. simpl. lia.
Qed.

(** X7: on the page no registry or handoff edit can throw.  After any
    sequence of events on the page, an event on any control other than the
    file input (whose PDF path lets rejections escape) returns normally: the
    index it passes is one of the list it was rendered from, and every agent
    still has its [params] object. *)
Theorem X7_page_controls_return (prompt guidance : string) (cs : list Control)
    (c : Control) :
  match c with
  | FileInput _ => True
  | _ => ∃ σ', click c (ui_session prompt guidance cs) = Done σ'
  end.
Proof.
  pose proof (ui_session_intact prompt guidance cs) as Hσ.
  pose proof Hσ as (Hcfg & Hlen & Hparams & Hnodup & Hlog).
  destruct c as [t|file|newText|i o|i x|i x|i x|env input|i x|]; try done;
    unfold click; destruct (rendered _ _) eqn:Hr; simpl; eauto; simpl in Hr.
  - apply andb_prop in Hr as [_ Hi%bool_decide_eq_true]. rewrite Hcfg in Hi.
    eexists. by apply top_level_edit_intact.
  - apply andb_prop in Hr as [_ Hi%bool_decide_eq_true]. rewrite Hcfg in Hi.
    eexists. by apply params_edit_intact.
  - apply andb_prop in Hr as [_ Hi%bool_decide_eq_true]. rewrite Hcfg in Hi.
    eexists. by apply params_edit_intact.
  - apply andb_prop in Hr as [_ Hi%bool_decide_eq_true]. rewrite Hcfg in Hi.
    eexists. by apply top_level_edit_intact.
  - apply andb_prop in Hr as [_ Hi%bool_decide_eq_true].
    destruct (lookup_lt_is_Some_2 _ _ Hi) as [l Hl].
    eexists. by apply (handoff_edit_in_range _ _ _ _ Hl).
Qed.

(** X8: a run started on the page can only be stopped by the world.  After
    any sequence of events on the page, the message a run leaves in [error]
    is the message of the client's constructor or of the first call that
    rejected, every call before it having resolved into a logged entry; the
    TypeError of a missing [params] cannot occur. *)
Theorem X8_page_run_fails_only_outside (prompt guidance : string)
    (cs : list Control) (env : RunEnv) (initialInput m : string) :
  error (workspace (handleRunChain env initialInput (ui_session prompt guidance cs)))
  = Some m →
  (∃ e, client env = Err e ∧ m = message e)
  ∨ (∃ e k,
       k = List.length (runLog (workspace
             (handleRunChain env initialInput (ui_session prompt guidance cs))))
       ∧ (k < 4)%nat
       ∧ response (calls env k) = Rejected e
       ∧ m = message e
       ∧ ∀ j, (j < k)%nat → ∃ text, response (calls env j) = Resolved text).
Proof.
  pose proof (ui_session_intact prompt guidance cs) as Hσ.
  pose proof Hσ as (Hcfg & Hlen & Hparams & Hnodup & Hlog).
  set (σ := ui_session prompt guidance cs) in *.
  destruct (client env) as [u|e] eqn:Hc.
  - destruct (for_of_agents env (agentsRunConfig (workspace σ))
                (run_locals initialInput) (run_start σ)) as [[c v'] σ'] eqn:Hrun.
    rewrite (handleRunChain_loop _ _ _ _ _ _ _ Hc Hrun).
    destruct (for_of_agents_frame _ _ _ _ _ _ _ Hrun)
      as (ents & reqs & Hh & Hnew & Hr & Hd & Ht & Hw & Hrl).
    pose proof (for_of_agents_count _ _ _ _ _ _ _ Hrun) as Hcount.
    pose proof (for_of_agents_resolved _ _ _ _ _ _ _ Hrun) as Hres.
    specialize (Hrl eq_refl). rewrite run_finish_runLog, Hrl.
    destruct c as [|e]; simpl.
    + by rewrite Hw.
    + intros [= <-]. right. exists e, (List.length (newRunLog v')).
      rewrite Hcfg in Hcount. simpl in Hcount, Hres.
      split; [done|]. split; [lia|].
      destruct (for_of_agents_cause _ _ _ _ _ _ _ Hrun)
        as [Hrej|(-> & a & Ha & Hp)].
      * split; [done|]. split; [done|]. intros j Hj. apply Hres. lia.
      * exfalso. simpl in Ha. rewrite Nat.sub_0_r, Hcfg in Ha.
        apply initialAgents_lookup_inv in Ha as [Hk ->].
        simpl in Hh. rewrite Hh, prop_app_l in Hp by lia.
        by rewrite (Hparams _ Hk) in Hp.
  - rewrite (handleRunChain_client_throws _ _ _ _ Hc). simpl.
    intros [= <-]. left. by exists e.
Qed.

Lemma X8_page_run_fails_only_outside_witness :
  (∃ e, client second_call_fails = Err e ∧ "503 Service Unavailable" = message e)
  ∨ (∃ e k,
       k = List.length (runLog (workspace
             (handleRunChain second_call_fails "guidance"
                (ui_session "" "" [NavButton TabAgents; TemperatureRange 1 0.7;
                                   NavButton TabRunChain]))))
       ∧ (k < 4)%nat
       ∧ response (calls second_call_fails k) = Rejected e
       ∧ "503 Service Unavailable" = message e
       ∧ ∀ j, (j < k)%nat → ∃ text, response (calls second_call_fails j) = Resolved text).
Proof.
  apply (X8_page_run_fails_only_outside "" ""
           [NavButton TabAgents; TemperatureRange 1 0.7; NavButton TabRunChain]
           second_call_fails "guidance" "503 Service Unavailable").
  reflexivity.
Defined.

(** ** Export *)

Lemma excerpt_length (s : string) :
  js_length (substring s 0 1000) = Z.min 1000 (js_length s).
Proof.
  assert (Hsub : substring s 0 1000
                 = String.substring 0 (Z.to_nat (Z.min 1000 (js_length s))) s).
  { unfold substring, js_length. f_equal; lia. }
  rewrite Hsub. unfold js_length. rewrite substring_0_length. lia.
Qed.

Lemma handleRunConfigChange_downloads index field value σ :
  downloads (state_of (handleRunConfigChange index field value σ)) = downloads σ.
Proof.
  unfold handleRunConfigChange.
  by destruct (if startsWith "params." field then _ else _).
Qed.

Lemma handleHandoffEdit_downloads index value σ :
  downloads (state_of (handleHandoffEdit index value σ)) = downloads σ.
Proof. unfold handleHandoffEdit. by destruct (set_prop _ _ _ _). Qed.

Lemma handleFileChange_downloads file σ :
  downloads (state_of (handleFileChange file σ)) = downloads σ.
Proof.
  destruct file as [file|]; simpl; [|done].
  assert (Hpdf : downloads (state_of (handlePdfUpload file σ)) = downloads σ).
  { unfold handlePdfUpload. destruct (getDocument file); [|done].
    by destruct (ocr_loop _ _ _ _). }
  destruct (String.eqb _ _); [exact Hpdf|].
  by destruct (readAsText file).
Qed.

Lemma handleRawTextChange_downloads newText σ :
  downloads (handleRawTextChange newText σ) = downloads σ.
Proof.
  unfold handleRawTextChange. destruct (activeTab σ); try done.
  by destruct (200 <? _).
Qed.

(** X9: every file the page ever offers for download carries results: after
    any sequence of events on the page, each offered file is named
    agent_chain_results.json, has at least one chain item (the button exists
    only beside a non-empty run log) and an excerpt of at most 1000
    characters. *)
Theorem X9_page_downloads_carry_results (prompt guidance : string)
    (cs : list Control) :
  Forall (λ d, download d = "agent_chain_results.json"
               ∧ chain (exportData d) ≠ []
               ∧ js_length (guidance_excerpt (exportData d)) ≤ 1000)
    (downloads (ui_session prompt guidance cs)).
Proof.
  unfold ui_session.
  assert (Hinit : Forall (λ d, download d = "agent_chain_results.json"
                               ∧ chain (exportData d) ≠ []
                               ∧ js_length (guidance_excerpt (exportData d)) ≤ 1000)
                    (downloads (initial_state prompt guidance)))
    by apply Forall_nil_2.
  revert Hinit. generalize (initial_state prompt guidance).
  induction cs as [|c cs IH]; intros σ Hσ; simpl; [done|].
  apply IH. unfold click. destruct (rendered σ c) eqn:Hr; [|done].
  destruct c as [t|file|newText|i o|i x|i x|i x|env input|i x|]; simpl.
  - done.
  - by rewrite handleFileChange_downloads.
  - by rewrite handleRawTextChange_downloads.
  - by rewrite handleRunConfigChange_downloads.
  - by rewrite handleRunConfigChange_downloads.
  - by rewrite handleRunConfigChange_downloads.
  - by rewrite handleRunConfigChange_downloads.
  - destruct (handleRunChain_frame env input σ) as (ents & Hframe).
    destruct Hframe as (_ & _ & _ & _ & _ & _ & _ & _ & Hd). by rewrite Hd.
  - by rewrite handleHandoffEdit_downloads.
  - simpl in Hr. apply andb_prop in Hr as [Hr _].
    apply andb_prop in Hr as [_ Hlen%bool_decide_eq_true].
    apply Forall_app. split; [done|]. apply Forall_singleton. simpl.
    split; [done|]. split.
    + intros Hnil. apply (f_equal List.length) in Hnil.
      rewrite length_map in Hnil. simpl in Hnil. lia.
    + rewrite excerpt_length. lia.
Qed.

Lemma X9_page_downloads_carry_results_witness :
  downloads (ui_session "" ""
               [NavButton TabRunChain; RunButton four_calls_1004ms "guidance";
                DownloadButton]) ≠ []
  ∧ Forall (λ d, download d = "agent_chain_results.json"
                 ∧ chain (exportData d) ≠ []
                 ∧ js_length (guidance_excerpt (exportData d)) ≤ 1000)
      (downloads (ui_session "" ""
                    [NavButton TabRunChain; RunButton four_calls_1004ms "guidance";
                     DownloadButton])).
Proof.
  split; [by vm_compute|].
  apply (X9_page_downloads_carry_results "" ""
           [NavButton TabRunChain; RunButton four_calls_1004ms "guidance";
            DownloadButton]).
Defined.

(** ** Agent Registry: what an edit changes for the next run *)

Lemma split_go_no_dot (key cur : string) :
  has_dot key = false → split_go "." key cur = [cur +:+ key].
Proof.
  revert cur. induction key as [|c key IH]; intros cur Hdot; simpl in *.
  - by rewrite string_app_nil_r.
  - apply orb_false_elim in Hdot as [Hc Hkey]. rewrite Hc, IH by done.
    by rewrite string_app_assoc.
Qed.

Lemma split_params_key (key : string) :
  has_dot key = false → split "." ("params." +:+ key) !! 1%nat = Some key.
Proof.
  intros Hdot.
  change (split "." ("params." +:+ key)) with ("params" :: split_go "." key "").
  by rewrite split_go_no_dot.
Qed.

Lemma startsWith_params_key (key : string) :
  startsWith "params." ("params." +:+ key) = true.
Proof. destruct key; by vm_compute. Qed.

(** The request of an agent that refers to a [params] object. *)
Lemma build_request_with_params (h : list obj) (a p : loc) (input : string) :
  prop h a "params" = VRef p →
  build_request h a input
  = Ok {| req_model := prop h a "model"; req_text := input;
          req_systemInstruction := prop h a "system_prompt";
          req_temperature := prop h p "temperature";
          req_maxOutputTokens := prop h p "maxOutputTokens" |}.
Proof.
  intros Hp. unfold build_request. rewrite !get_prop_ref. cbn [res_bind].
  by rewrite Hp, !get_prop_ref.
Qed.

(** X10: an edit of [params.<key>] is what the agent's next request carries.
    On intact agents, for an index of the list and a key without a dot
    other than [__proto__] (an assignment to that name reaches the accessor
    of [Object.prototype] and creates no property), the edit returns
    normally; afterwards [key] of that agent's [params] object reads the
    value, its other keys and every other object are as before, the
    agent's request carries the new temperature or token limit (and its
    old model and prompt), and the requests of the other agents are the
    same as before the edit. *)
Theorem X10_params_edit_reaches_request (σ : State) (i : nat) (key : string)
    (value : val) :
  agents_intact σ →
  (i < 4)%nat →
  has_dot key = false →
  key ≠ "__proto__" →
  ∃ σ',
    handleRunConfigChange (Z.of_nat i) ("params." +:+ key) value σ = Done σ'
    ∧ prop (heap σ') (2 * i + 1)%nat key = value
    ∧ (∀ key', key' ≠ key →
         prop (heap σ') (2 * i + 1)%nat key' = prop (heap σ) (2 * i + 1)%nat key')
    ∧ (∀ l, l ≠ (2 * i + 1)%nat → deref (heap σ') l = deref (heap σ) l)
    ∧ (∀ input,
         build_request (heap σ') (2 * i)%nat input
         = Ok {| req_model := prop (heap σ) (2 * i)%nat "model";
                 req_text := input;
                 req_systemInstruction := prop (heap σ) (2 * i)%nat "system_prompt";
                 req_temperature :=
                   if String.eqb key "temperature" then value
                   else prop (heap σ) (2 * i + 1)%nat "temperature";
                 req_maxOutputTokens :=
                   if String.eqb key "maxOutputTokens" then value
                   else prop (heap σ) (2 * i + 1)%nat "maxOutputTokens" |})
    ∧ (∀ j input, (j < 4)%nat → j ≠ i →
         build_request (heap σ') (2 * j)%nat input
         = build_request (heap σ) (2 * j)%nat input).
Proof.
  intros Hσ Hi Hdot _.
  pose proof Hσ as (Hcfg & Hlen & Hparams & _).
  destruct (params_edit_intact σ i ("params." +:+ key) value Hσ Hi
              (startsWith_params_key key)) as [Heq _].
  rewrite (split_params_key key Hdot) in Heq. simpl in Heq.
  eexists. split; [exact Heq|]. simpl.
  assert (Hkey : ∀ key',
            prop (<[(2 * i + 1)%nat := <[key := value]> (deref (heap σ) (2 * i + 1)%nat)]>
                    (heap σ)) (2 * i + 1)%nat key'
            = if String.eqb key key' then value
              else prop (heap σ) (2 * i + 1)%nat key').
  { intros key'. unfold prop. rewrite deref_insert_eq by lia.
    destruct (String.eqb_spec key key') as [->|Hne].
    - by rewrite lookup_insert_eq.
    - by rewrite lookup_insert_ne. }
  assert (Hother : ∀ l, l ≠ (2 * i + 1)%nat →
            deref (<[(2 * i + 1)%nat := <[key := value]> (deref (heap σ) (2 * i + 1)%nat)]>
                     (heap σ)) l
            = deref (heap σ) l).
  { intros l Hl. by apply deref_insert_ne. }
  split; [|split; [|split; [|split]]].
  - by rewrite Hkey, String.eqb_refl.
  - intros key' Hne. rewrite Hkey.
    destruct (String.eqb_spec key key'); [by subst|done].
  - exact Hother.
  - intros input.
    rewrite (build_request_with_params _ (2 * i)%nat (2 * i + 1)%nat).
    + unfold prop at 1 2. rewrite !Hother by lia. by rewrite !Hkey.
    + unfold prop. rewrite Hother by lia. by apply Hparams.
  - intros j input Hj Hne.
    rewrite (build_request_with_params _ (2 * j)%nat (2 * j + 1)%nat).
    + rewrite (build_request_with_params (heap σ) (2 * j)%nat (2 * j + 1)%nat)
        by (by apply Hparams).
      unfold prop. by rewrite !Hother by lia.
    + unfold prop. rewrite Hother by lia. by apply Hparams.
Qed.

Lemma X10_params_edit_reaches_request_witness :
  ∃ σ',
    handleRunConfigChange (Z.of_nat 1) ("params." +:+ "temperature") (VNum 0.7)
      (initial_state "" "") = Done σ'
    ∧ prop (heap σ') (2 * 1 + 1)%nat "temperature" = VNum 0.7
    ∧ (∀ key', key' ≠ "temperature" →
         prop (heap σ') (2 * 1 + 1)%nat key'
         = prop (heap (initial_state "" "")) (2 * 1 + 1)%nat key')
    ∧ (∀ l, l ≠ (2 * 1 + 1)%nat →
         deref (heap σ') l = deref (heap (initial_state "" "")) l)
    ∧ (∀ input,
         build_request (heap σ') (2 * 1)%nat input
         = Ok {| req_model := prop (heap (initial_state "" "")) (2 * 1)%nat "model";
                 req_text := input;
                 req_systemInstruction :=
                   prop (heap (initial_state "" "")) (2 * 1)%nat "system_prompt";
                 req_temperature :=
                   if String.eqb "temperature" "temperature" then VNum 0.7
                   else prop (heap (initial_state "" "")) (2 * 1 + 1)%nat "temperature";
                 req_maxOutputTokens :=
                   if String.eqb "temperature" "maxOutputTokens" then VNum 0.7
                   else prop (heap (initial_state "" "")) (2 * 1 + 1)%nat
                          "maxOutputTokens" |})
    ∧ (∀ j input, (j < 4)%nat → j ≠ 1%nat →
         build_request (heap σ') (2 * j)%nat input
         = build_request (heap (initial_state "" "")) (2 * j)%nat input).
Proof.
  apply (X10_params_edit_reaches_request (initial_state "" "") 1 "temperature"
           (VNum 0.7)).
  - repeat split; try (simpl; lia); try apply NoDup_nil_2; try apply Forall_nil_2.
    intros i Hi. destruct i as [|[|[|[|i]]]]; [reflexivity..|lia].
  - lia.
  - reflexivity.
  - discriminate.
Defined.

Lemma split_go_first_dot (key rest cur : string) :
  has_dot key = false →
  split_go "." (key +:+ String "." rest) cur = (cur +:+ key) :: split_go "." rest "".
Proof.
  revert cur. induction key as [|c key IH]; intros cur Hdot.
  - change ("" +:+ String "." rest) with (String "." rest). simpl.
    by rewrite string_app_nil_r.
  - simpl in Hdot. apply orb_false_elim in Hdot as [Hc Hkey].
    rewrite string_app_cons. simpl. rewrite Hc, IH by done.
    by rewrite string_app_assoc.
Qed.

(** X11: a field path deeper than two segments is cut after the second: for
    a key without a dot, an edit of [params.<key>.<rest>] does exactly what
    the edit of [params.<key>] does, in every state and at every index. *)
Theorem X11_deeper_path_is_cut (σ : State) (index : Z) (key rest : string)
    (value : val) :
  has_dot key = false →
  handleRunConfigChange index ("params." +:+ key +:+ String "." rest) value σ
  = handleRunConfigChange index ("params." +:+ key) value σ.
Proof.
  intros Hdot. unfold handleRunConfigChange.
  assert (Hstarts : startsWith "params." ("params." +:+ key +:+ String "." rest) = true).
  { apply (startsWith_params_key (key +:+ String "." rest)). }
  assert (Hsplit : split "." ("params." +:+ key +:+ String "." rest) !! 1%nat = Some key).
  { change (split "." ("params." +:+ key +:+ String "." rest))
      with ("params" :: split_go "." (key +:+ String "." rest) "").
    by rewrite split_go_first_dot. }
  by rewrite Hstarts, Hsplit, startsWith_params_key, split_params_key.
Qed.

Lemma X11_deeper_path_is_cut_witness :
  handleRunConfigChange 0 ("params." +:+ "temperature" +:+ String "." "max") (VNum 1)
    (initial_state "" "")
  = handleRunConfigChange 0 ("params." +:+ "temperature") (VNum 1) (initial_state "" "").
Proof.
  apply (X11_deeper_path_is_cut (initial_state "" "") 0 "temperature" "max" (VNum 1)).
  reflexivity.
Defined.

(** ** Handoff Editor *)

(** X12: [handleHandoffEdit] does not check [index] either: outside the run
    log (in particular on an empty log) a TypeError escapes and the state is
    exactly as before. *)
Theorem X12_handoff_index_unchecked (index : Z) (newOutput : val) (σ : State) :
  index < 0 ∨ Z.of_nat (List.length (runLog (workspace σ))) ≤ index →
  handleHandoffEdit index newOutput σ
  = Threw (TypeError "Cannot set properties of undefined (setting 'output')") σ.
Proof.
  intros Hout. unfold handleHandoffEdit.
  by rewrite (array_get_out_of_range _ _ Hout).
Qed.

Lemma X12_handoff_index_unchecked_witness :
  handleHandoffEdit 0 (VStr "note") (initial_state "" "")
  = Threw (TypeError "Cannot set properties of undefined (setting 'output')")
      (initial_state "" "").
Proof.
  apply (X12_handoff_index_unchecked 0 (VStr "note") (initial_state "" "")).
  right. simpl. lia.
Defined.

(** X13: a handoff edit is what the export carries.  On a well-formed run
    log and an index of the log, the file offered after the edit has, at
    that index, the new output beside the entry's agent name and model, and
    at every other index the item it would have had without the edit; its
    excerpt and metrics are those it would have had. *)
Theorem X13_export_after_handoff_edit (σ : State) (i : nat) (newOutput : val) :
  runLog_wf σ →
  (i < List.length (runLog (workspace σ)))%nat →
  ∃ σ' l d d',
    handleHandoffEdit (Z.of_nat i) newOutput σ = Done σ'
    ∧ runLog (workspace σ) !! i = Some l
    ∧ last_offer (downloadResults σ) = Some d
    ∧ last_offer (downloadResults σ') = Some d'
    ∧ chain d' = <[i := {| agent := prop (heap σ) l "agentName";
                           item_model := prop (heap σ) l "model";
                           output := newOutput |}]> (chain d)
    ∧ guidance_excerpt d' = guidance_excerpt d
    ∧ export_metrics d' = export_metrics d.
Proof.
  intros [Hnodup Hvalid] Hi.
  destruct (lookup_lt_is_Some_2 _ _ Hi) as [l Hl].
  assert (Hlt : (l < List.length (heap σ))%nat)
    by (eapply (Forall_lookup_1 _ _ _ _ Hvalid Hl)).
  eexists _, l, _, _. split; [by apply (handoff_edit_in_range _ _ _ _ Hl)|].
  split; [done|]. unfold last_offer, downloadResults, offer. simpl.
  rewrite !last_snoc. simpl. split; [reflexivity|]. split; [reflexivity|]. simpl.
  split; [|done].
  apply list_eq. intros k. rewrite list_lookup_fmap.
  destruct (decide (k = i)) as [->|Hne].
  - rewrite list_lookup_insert_eq by (by rewrite length_map).
    rewrite Hl. simpl. unfold prop. rewrite deref_insert_eq by done.
    by rewrite lookup_insert_eq, !lookup_insert_ne.
  - rewrite list_lookup_insert_ne by done. rewrite list_lookup_fmap.
    destruct (runLog (workspace σ) !! k) as [l'|] eqn:Hl'; simpl; [|done].
    assert (l ≠ l').
    { intros <-. apply Hne. by eapply NoDup_lookup. }
    unfold prop. by rewrite deref_insert_ne.
Qed.

Lemma X13_export_after_handoff_edit_witness :
  ∃ σ' l d d',
    handleHandoffEdit (Z.of_nat 1) (VStr "reviewed gaps") after_four_calls = Done σ'
    ∧ runLog (workspace after_four_calls) !! 1%nat = Some l
    ∧ last_offer (downloadResults after_four_calls) = Some d
    ∧ last_offer (downloadResults σ') = Some d'
    ∧ chain d' = <[1%nat := {| agent := prop (heap after_four_calls) l "agentName";
                               item_model := prop (heap after_four_calls) l "model";
                               output := VStr "reviewed gaps" |}]> (chain d)
    ∧ guidance_excerpt d' = guidance_excerpt d
    ∧ export_metrics d' = export_metrics d.
Proof.
  apply (X13_export_after_handoff_edit after_four_calls 1 (VStr "reviewed gaps")).
  - split; apply (bool_decide_unpack _); by vm_compute.
  - vm_compute. lia.
Defined.



(** ** Runs and earlier results *)

(** Republishing the run log as it is changes nothing. *)
Lemma republish_runLog (σ : State) :
  setWorkspace (with_runLog (runLog (workspace σ))) σ = σ.
Proof. by destruct σ as [h [] t r d]. Qed.

(** A request reads the agent's object and its [params] object only. *)
Lemma build_request_insert (h : list obj) (a l : loc) (o : obj) (input : string) :
  a ≠ l →
  (∀ p, prop h a "params" = VRef p → p ≠ l) →
  build_request (<[l := o]> h) a input = build_request h a input.
Proof.
  intros Ha Hp. unfold build_request. rewrite !get_prop_ref.
  assert (Hprop : ∀ key, prop (<[l := o]> h) a key = prop h a key).
  { intros key. unfold prop. by rewrite deref_insert_ne. }
  rewrite !Hprop. cbn [res_bind].
  destruct (prop h a "params") as [|s|x|p] eqn:Hparams; try done.
  rewrite !get_prop_ref. unfold prop.
  by rewrite deref_insert_ne by (intros ->; by apply (Hp p)).
Qed.

(** The loop never reads an object that is neither an agent of the list nor
    the [params] object of one: with such an object replaced, it runs the
    same way and leaves that replacement in the store. *)
Lemma for_of_agents_insert (env : RunEnv) (l : loc) (o : obj) (configs : list loc) :
  ∀ v σ c v' σ',
    (l < List.length (heap σ))%nat →
    (∀ a, a ∈ configs →
       a ≠ l ∧ (a < List.length (heap σ))%nat
       ∧ ∀ p, prop (heap σ) a "params" = VRef p → p ≠ l) →
    for_of_agents env configs v σ = (c, v', σ') →
    for_of_agents env configs v (with_heap (<[l := o]> (heap σ)) σ)
    = (c, v', with_heap (<[l := o]> (heap σ')) σ').
Proof.
  induction configs as [|a rest IH]; intros v σ c v' σ' Hl Hcfg Hrun; simpl in *.
  - by injection Hrun as <- <- <-.
  - destruct (Hcfg a ltac:(left)) as (Ha & Hin & Hp).
    rewrite build_request_insert by done.
    destruct (build_request (heap σ) a (currentInput v)) as [request|e].
    + destruct (response (calls env (List.length (newRunLog v)))) as [text|e].
      * rewrite length_insert.
        assert (Hentry : logEntry env (<[l := o]> (heap σ)) a (call_output text)
                           (call_latency (calls env (List.length (newRunLog v))))
                         = logEntry env (heap σ) a (call_output text)
                             (call_latency (calls env (List.length (newRunLog v))))).
        { unfold logEntry, prop. by rewrite !deref_insert_ne. }
        rewrite Hentry.
        rewrite <- (insert_app_l (heap σ) _ l o) by done.
        match type of Hrun with
        | for_of_agents _ _ ?w ?τ = _ =>
            apply (IH w τ c v' σ'); [simpl; rewrite length_app; lia| |exact Hrun]
        end.
        intros a' Ha'. destruct (Hcfg a' ltac:(by right)) as (Hne & Hin' & Hp').
        simpl. rewrite length_app, prop_app_l by done.
        split; [done|]. split; [lia|done].
      * by injection Hrun as <- <- <-.
    + by injection Hrun as <- <- <-.
Qed.

Lemma run_finish_with_heap (c : Completion) (v : RunLocals) (h : list obj) (σ : State) :
  run_finish c v (with_heap h σ) = with_heap h (run_finish c v σ).
Proof. by destruct c. Qed.

(** A whole run with such an object replaced beforehand. *)
Lemma handleRunChain_insert (env : RunEnv) (baseInput : string) (σ : State)
    (l : loc) (o : obj) :
  (l < List.length (heap σ))%nat →
  (∀ a, a ∈ agentsRunConfig (workspace σ) →
     a ≠ l ∧ (a < List.length (heap σ))%nat
     ∧ ∀ p, prop (heap σ) a "params" = VRef p → p ≠ l) →
  handleRunChain env baseInput (with_heap (<[l := o]> (heap σ)) σ)
  = with_heap (<[l := o]> (heap (handleRunChain env baseInput σ)))
      (handleRunChain env baseInput σ).
Proof.
  intros Hl Hcfg. destruct (client env) as [u|e] eqn:Hc.
  - destruct (for_of_agents env (agentsRunConfig (workspace σ))
                (run_locals baseInput) (run_start σ)) as [[c v'] σ'] eqn:Hrun.
    rewrite (handleRunChain_loop _ _ σ _ _ _ _ Hc Hrun).
    rewrite (handleRunChain_loop env baseInput _ u c v'
               (with_heap (<[l := o]> (heap σ')) σ') Hc).
    + by rewrite run_finish_with_heap, run_finish_heap.
    + by apply (for_of_agents_insert env l o _ _ (run_start σ)).
  - rewrite !(handleRunChain_client_throws _ _ _ _ Hc).
    change (run_start (with_heap (<[l := o]> (heap σ)) σ))
      with (with_heap (<[l := o]> (heap σ)) (run_start σ)).
    by rewrite run_finish_with_heap, run_finish_heap.
Qed.

(** X15: an edited handoff never feeds a run.  On intact agents, after the
    output of any entry of the run log has been edited, a run with the same
    input in the same surroundings issues the same requests (each agent
    still receives the output the previous agent produced in this run, not
    the edited text), ends with the same workspace (log, metrics, error)
    and logs entries with the same content as it would have without the
    edit. *)
Theorem X15_handoff_edit_never_feeds_a_run (env : RunEnv) (baseInput : string)
    (σ : State) (i : nat) (newOutput : val) :
  agents_intact σ →
  (i < List.length (runLog (workspace σ)))%nat →
  ∃ σ', handleHandoffEdit (Z.of_nat i) newOutput σ = Done σ'
    ∧ requests (handleRunChain env baseInput σ')
      = requests (handleRunChain env baseInput σ)
    ∧ workspace (handleRunChain env baseInput σ')
      = workspace (handleRunChain env baseInput σ)
    ∧ (∀ l, l ∈ runLog (workspace (handleRunChain env baseInput σ)) →
         deref (heap (handleRunChain env baseInput σ')) l
         = deref (heap (handleRunChain env baseInput σ)) l).
Proof.
  intros Hσ Hi. pose proof Hσ as (Hcfg & Hlen & Hparams & _ & Hlog).
  destruct (lookup_lt_is_Some_2 _ _ Hi) as [l Hl].
  rewrite Forall_forall in Hlog.
  pose proof (Hlog l (list_elem_of_lookup_2 _ _ _ Hl)) as Hrange. simpl in Hrange.
  eexists. split; [by apply handoff_edit_in_range|].
  match goal with
  | |- context [setWorkspace _ (with_heap ?h σ)] =>
      change (setWorkspace (with_runLog (runLog (workspace σ))) (with_heap h σ))
        with (setWorkspace (with_runLog (runLog (workspace (with_heap h σ))))
                (with_heap h σ));
      rewrite (republish_runLog (with_heap h σ))
  end.
  rewrite handleRunChain_insert.
  - split; [done|]. split; [done|]. intros l' Hl'. simpl.
    destruct (handleRunChain_frame env baseInput σ) as (ents & _ & Hrl & _).
    rewrite Hrl in Hl'. apply elem_of_seq in Hl'.
    apply deref_insert_ne. lia.
  - lia.
  - intros a Ha. rewrite Hcfg in Ha.
    apply list_elem_of_lookup_1 in Ha as [j Hj].
    apply initialAgents_lookup_inv in Hj as [Hj ->].
    split; [lia|]. split; [lia|]. intros p Hp.
    rewrite (Hparams j Hj) in Hp. injection Hp as <-. lia.
Qed.

Lemma X15_handoff_edit_never_feeds_a_run_witness :
  ∃ σ', handleHandoffEdit (Z.of_nat 1) (VStr "reviewed gaps") after_four_calls = Done σ'
    ∧ requests (handleRunChain four_calls_1004ms "guidance" σ')
      = requests (handleRunChain four_calls_1004ms "guidance" after_four_calls)
    ∧ workspace (handleRunChain four_calls_1004ms "guidance" σ')
      = workspace (handleRunChain four_calls_1004ms "guidance" after_four_calls)
    ∧ (∀ l, l ∈ runLog (workspace
                (handleRunChain four_calls_1004ms "guidance" after_four_calls)) →
         deref (heap (handleRunChain four_calls_1004ms "guidance" σ')) l
         = deref (heap (handleRunChain four_calls_1004ms "guidance" after_four_calls)) l).
Proof.
  apply (X15_handoff_edit_never_feeds_a_run four_calls_1004ms "guidance"
           after_four_calls 1 (VStr "reviewed gaps")).
  - split; [reflexivity|]. split; [vm_compute; lia|]. split; [|split].
    + intros i Hi. destruct i as [|[|[|[|i]]]]; [by vm_compute..|lia].
    + apply (bool_decide_unpack _). by vm_compute.
    + apply (bool_decide_unpack _). by vm_compute.
  - vm_compute. lia.
Defined.

(** ** Ingestion, page by page *)

Lemma string_app_length (s t : string) :
  String.length (s +:+ t) = (String.length s + String.length t)%nat.
Proof. induction s as [|c s IH]; [done|]. rewrite string_app_cons. simpl. by rewrite IH. Qed.

(** The loop's text has two characters more than its page texts per page. *)
Lemma pages_text_length (texts : list string) :
  String.length (pages_text texts)
  = (sum_list (String.length <$> texts) + 2 * List.length texts)%nat.
Proof.
  induction texts as [|t ts IH]; [done|].
  change (pages_text (t :: ts)) with (t +:+ nl +:+ nl +:+ pages_text ts).
  rewrite !string_app_length, IH, fmap_cons.
  change (String.length nl) with 1%nat. cbn [sum_list sum_list_with List.length].
  unfold id. lia.
Qed.

(** The loop's text is the page texts joined by blank lines, with one more
    blank line at the end, whenever there is a page. *)
Lemma pages_text_join (texts : list string) :
  texts ≠ [] → pages_text texts = String.concat (nl +:+ nl) texts +:+ nl +:+ nl.
Proof.
  induction texts as [|t ts IH]; [done|]. intros _.
  change (pages_text (t :: ts)) with (t +:+ nl +:+ nl +:+ pages_text ts).
  destruct ts as [|t' ts].
  - by rewrite string_app_nil_r.
  - rewrite IH by done.
    change (String.concat (nl +:+ nl) (t :: t' :: ts))
      with (t +:+ (nl +:+ nl) +:+ String.concat (nl +:+ nl) (t' :: ts)).
    by rewrite !string_app_assoc.
Qed.

(** The loop stops at the first page that fails, whatever it has read. *)
Lemma ocr_loop_fails_at (pdf : PdfDocument) (e : JsError) (k : nat) :
  ∀ i fullText remaining,
    (∀ j, (j < k)%nat → ∃ text, recognize pdf (i + j)%nat = Recognized text) →
    recognize pdf (i + k)%nat = PageFailed e →
    ocr_loop pdf (k + S remaining) i fullText = Err e.
Proof.
  induction k as [|k IH]; intros i fullText remaining Hread Hfail.
  - apply ocr_loop_page_failed. by rewrite Nat.add_0_r in Hfail.
  - destruct (Hread 0%nat ltac:(lia)) as [text Htext].
    rewrite Nat.add_0_r in Htext. simpl. rewrite Htext. apply IH.
    + intros j Hj. replace (S i + j)%nat with (i + S j)%nat by lia.
      apply Hread. lia.
    + by replace (S i + k)%nat with (i + S k)%nat by lia.
Qed.

(** X16: one page that cannot be rendered or recognised discards the whole
    upload.  If the pages before page k+1 of a PDF are recognised and page
    k+1 fails with [e], the upload ends with [e] uncaught and the state
    exactly as it was: none of the text read so far is kept, the counters
    and the tab do not change; and the same holds when the file comes in
    through the file input. *)
Theorem X16_failed_page_discards_upload (σ : State) (file : File)
    (pdf : PdfDocument) (k : nat) (e : JsError) :
  getDocument file = Ok pdf →
  (k < numPages pdf)%nat →
  (∀ j, (j < k)%nat → ∃ text, recognize pdf (S j) = Recognized text) →
  recognize pdf (S k) = PageFailed e →
  handlePdfUpload file σ = Threw e σ
  ∧ (file_type file = "application/pdf" →
     handleFileChange (Some file) σ = Threw e σ).
Proof.
  intros Hdoc Hk Hread Hfail.
  assert (Hpdf : handlePdfUpload file σ = Threw e σ).
  { unfold handlePdfUpload. rewrite Hdoc.
    replace (numPages pdf) with (k + S (numPages pdf - S k))%nat by lia.
    by rewrite (ocr_loop_fails_at pdf e k 1 "" _ Hread Hfail). }
  split; [done|]. intros Htype. unfold handleFileChange.
  apply String.eqb_eq in Htype. by rewrite Htype.
Qed.

Lemma X16_failed_page_discards_upload_witness :
  handlePdfUpload smudged_third_page (initial_state "" "")
  = Threw (TypeError "Error attempting to read image.") (initial_state "" "")
  ∧ (file_type smudged_third_page = "application/pdf" →
     handleFileChange (Some smudged_third_page) (initial_state "" "")
     = Threw (TypeError "Error attempting to read image.") (initial_state "" "")).
Proof.
  apply (X16_failed_page_discards_upload (initial_state "" "") smudged_third_page
           {| numPages := 4;
              recognize := λ i, match i with
                                | 3%nat => PageFailed
                                             (TypeError "Error attempting to read image.")
                                | _ => Recognized "text"
                                end |} 2).
  - reflexivity.
  - simpl. lia.
  - intros [|[|j]] Hj; [by eexists..|lia].
  - reflexivity.
Defined.

(** X17: what a fully recognised PDF leaves.  The upload returns normally
    on the Agents tab; [chars] is the total length of the page texts plus
    two per page, [ocr_pages] the page count; the text is empty when the
    PDF has no page and otherwise the page texts joined by blank lines with
    one more blank line after the last page. *)
Theorem X17_recognised_pdf_counts (σ : State) (file : File) (pdf : PdfDocument)
    (texts : list string) :
  getDocument file = Ok pdf →
  List.length texts = numPages pdf →
  (∀ j text, texts !! j = Some text → recognize pdf (S j) = Recognized text) →
  ∃ σ', handlePdfUpload file σ = Done σ'
    ∧ activeTab σ' = TabAgents
    ∧ ocr_pages (metrics (workspace σ')) = Z.of_nat (List.length texts)
    ∧ chars (metrics (workspace σ'))
      = Z.of_nat (sum_list (String.length <$> texts)) + 2 * Z.of_nat (List.length texts)
    ∧ (texts = [] → rawText (workspace σ') = "")
    ∧ (texts ≠ [] →
       rawText (workspace σ') = String.concat (nl +:+ nl) texts +:+ nl +:+ nl).
Proof.
  intros Hdoc Hlen Hpages. unfold handlePdfUpload.
  rewrite Hdoc, <- Hlen, (ocr_loop_recognized pdf texts 1 ""); [|done].
  eexists. split; [reflexivity|]. simpl.
  split; [done|]. split; [done|]. split; [|split].
  - unfold js_length.
    change ("" +:+ pages_text texts) with (pages_text texts).
    rewrite pages_text_length. lia.
  - by intros ->.
  - intros Hne. change ("" +:+ pages_text texts) with (pages_text texts).
    by apply pages_text_join.
Qed.

Lemma X17_recognised_pdf_counts_witness :
  ∃ σ', handlePdfUpload two_page_pdf (initial_state "" "") = Done σ'
    ∧ activeTab σ' = TabAgents
    ∧ ocr_pages (metrics (workspace σ')) = Z.of_nat (List.length ["page one"; "page two"])
    ∧ chars (metrics (workspace σ'))
      = Z.of_nat (sum_list (String.length <$> ["page one"; "page two"]))
        + 2 * Z.of_nat (List.length ["page one"; "page two"])
    ∧ (["page one"; "page two"] = [] → rawText (workspace σ') = "")
    ∧ (["page one"; "page two"] ≠ [] →
       rawText (workspace σ')
       = String.concat (nl +:+ nl) ["page one"; "page two"] +:+ nl +:+ nl).
Proof.
  apply (X17_recognised_pdf_counts (initial_state "" "") two_page_pdf
           {| numPages := 2;
              recognize := λ i, match i with
                                | 1%nat => Recognized "page one"
                                | 2%nat => Recognized "page two"
                                | _ => PageFailed (TypeError "no such page")
                                end |}
           ["page one"; "page two"]).
  - reflexivity.
  - reflexivity.
  - intros [|[|j]] text Hj; simpl in Hj; by inversion Hj.
Defined.

(** The chain of an export is read off the run log and the store. *)
Lemma export_chain (σ : State) :
  chain <$> last_offer (downloadResults σ)
  = Some ((λ l, {| agent := prop (heap σ) l "agentName";
                   item_model := prop (heap σ) l "model";
                   output := prop (heap σ) l "output" |}) <$> runLog (workspace σ)).
Proof. unfold last_offer, downloadResults, offer. simpl. by rewrite last_snoc. Qed.

(** X18: bringing in a new document leaves the results of the last run in
    place.  Whichever way text comes in (a raw-text edit, a file selection,
    a PDF upload, whether it succeeds or not), the store, the run log, both
    agent lists, [agents_run], [latency], [error], [isRunning], the
    requests and the downloads are as before, so an export made afterwards
    has the same chain as one made before; and a raw-text edit also keeps
    [ocr_pages], the page count of the last PDF. *)
Theorem X18_ingestion_keeps_run_results (σ : State) :
  (∀ newText,
     same_run_results σ (handleRawTextChange newText σ)
     ∧ (chain <$> last_offer (downloadResults (handleRawTextChange newText σ)))
       = (chain <$> last_offer (downloadResults σ))
     ∧ ocr_pages (metrics (workspace (handleRawTextChange newText σ)))
       = ocr_pages (metrics (workspace σ)))
  ∧ (∀ file,
       same_run_results σ (state_of (handleFileChange file σ))
       ∧ (chain <$> last_offer (downloadResults (state_of (handleFileChange file σ))))
         = (chain <$> last_offer (downloadResults σ)))
  ∧ (∀ file,
       same_run_results σ (state_of (handlePdfUpload file σ))
       ∧ (chain <$> last_offer (downloadResults (state_of (handlePdfUpload file σ))))
         = (chain <$> last_offer (downloadResults σ))).
Proof.
  assert (Hframe : ∀ σ',
            same_run_results σ σ' →
            (chain <$> last_offer (downloadResults σ'))
            = (chain <$> last_offer (downloadResults σ))).
  { intros σ' (Hh & Hrl & _). by rewrite !export_chain, Hh, Hrl. }
  assert (Htext : ∀ newText, same_run_results σ (handleRawTextChange newText σ)).
  { intros newText. unfold handleRawTextChange.
    destruct (activeTab σ); try by repeat split.
    destruct (200 <? _); by repeat split. }
  assert (Hpdf : ∀ file, same_run_results σ (state_of (handlePdfUpload file σ))).
  { intros file. unfold handlePdfUpload.
    destruct (getDocument file) as [pdf|e]; [|by repeat split].
    destruct (ocr_loop pdf (numPages pdf) 1 "") as [text|e]; by repeat split. }
  assert (Hfile : ∀ file, same_run_results σ (state_of (handleFileChange file σ))).
  { intros [file|]; simpl; [|by repeat split].
    destruct (String.eqb _ _); [apply Hpdf|].
    destruct (readAsText file); by repeat split. }
  split; [|split].
  - intros newText. split; [apply Htext|]. split; [apply Hframe, Htext|].
    unfold handleRawTextChange. destruct (activeTab σ); try done.
    by destruct (200 <? _).
  - intros file. split; [apply Hfile|apply Hframe, Hfile].
  - intros file. split; [apply Hpdf|apply Hframe, Hpdf].
Qed.

(** ** Dashboard *)

(** The three points of the score, each as a condition. *)
Lemma completion_score_points (m : Metrics) :
  completion_score m
  = Z.b2z (bool_decide (0 < ocr_pages m ∨ 1000 < chars m))
    + Z.b2z (bool_decide (2 ≤ agents_run m))
    + Z.b2z (bool_decide (5000 < chars m ∧ 4 ≤ agents_run m)).
Proof.
  unfold completion_score.
  destruct (Z.ltb_spec 0 (ocr_pages m)), (Z.ltb_spec 1000 (chars m)),
           (Z.leb_spec 2 (agents_run m)), (Z.ltb_spec 5000 (chars m)),
           (Z.leb_spec 4 (agents_run m)); simpl;
    repeat case_bool_decide; simpl; lia.
Qed.

(** X19: the completion score never drops when the metrics grow: with at
    least as many OCR pages, characters and agents run, the score is at
    least what it was. *)
Theorem X19_completion_score_monotone (m m' : Metrics) :
  ocr_pages m ≤ ocr_pages m' →
  chars m ≤ chars m' →
  agents_run m ≤ agents_run m' →
  completion_score m ≤ completion_score m'.
Proof.
  intros Hocr Hchars Hrun. rewrite !completion_score_points.
  repeat case_bool_decide; simpl; lia.
Qed.

Lemma X19_completion_score_monotone_witness :
  completion_score
    {| ocr_pages := 0; chars := 1200; agents_run := 1; latency := 0.5 |}
  ≤ completion_score
      {| ocr_pages := 3; chars := 5200; agents_run := 4; latency := 0.25 |}.
Proof.
  apply (X19_completion_score_monotone
           {| ocr_pages := 0; chars := 1200; agents_run := 1; latency := 0.5 |}
           {| ocr_pages := 3; chars := 5200; agents_run := 4; latency := 0.25 |});
    simpl; lia.
Defined.

(** X20: the dashboard of whatever is published, with a run in progress or
    not.  The status lookup always finds an entry of the status table; the
    score is 3 exactly when the text is longer than 5000 characters and
    [agents_run] is 4, and 0 exactly when no PDF page is counted, the text
    has at most 1000 characters and [agents_run] is below 2.  When no run
    is in progress, [agents_run] is the length of the run log, so that 3
    means the log holds all four agents and 0 requires fewer than two
    entries; during a run [agents_run] still counts the run before. *)
Theorem X20_published_dashboard (prompt guidance : string) (turns : list Turn) :
  (∃ s, statusMap (completion_score
          (metrics (workspace (on_screen (published prompt guidance turns)))))
        = Some s)
  ∧ (completion_score (metrics (workspace (on_screen (published prompt guidance turns))))
     = 3
     ↔ 5000 < js_length (rawText (workspace (on_screen (published prompt guidance turns))))
       ∧ agents_run (metrics (workspace (on_screen (published prompt guidance turns))))
         = 4)
  ∧ (completion_score (metrics (workspace (on_screen (published prompt guidance turns))))
     = 0
     ↔ ocr_pages (metrics (workspace (on_screen (published prompt guidance turns)))) = 0
       ∧ js_length (rawText (workspace (on_screen (published prompt guidance turns))))
         ≤ 1000
       ∧ agents_run (metrics (workspace (on_screen (published prompt guidance turns))))
         < 2)
  ∧ (in_progress (published prompt guidance turns) = None →
     (completion_score
        (metrics (workspace (on_screen (published prompt guidance turns)))) = 3
      ↔ 5000 < js_length (rawText (workspace (on_screen (published prompt guidance turns))))
        ∧ List.length (runLog (workspace (on_screen (published prompt guidance turns))))
          = 4%nat)
     ∧ (completion_score
          (metrics (workspace (on_screen (published prompt guidance turns)))) = 0
        ↔ ocr_pages (metrics (workspace (on_screen (published prompt guidance turns)))) = 0
          ∧ js_length (rawText (workspace (on_screen (published prompt guidance turns))))
            ≤ 1000
          ∧ (List.length
               (runLog (workspace (on_screen (published prompt guidance turns)))) < 2)%nat)).
Proof.
  destruct (published_invariant_holds prompt guidance turns)
    as (Hchars & _ & _ & _ & Hocr & Hrun & Hmode).
  unfold on_screen, in_progress.
  destruct (published prompt guidance turns) as [σ run]. simpl in *.
  unfold chars_invariant in Hchars. rewrite <- Hchars.
  set (m := metrics (workspace σ)) in *.
  rewrite completion_score_points.
  assert (Hlevels : (∃ s, statusMap
                        (Z.b2z (bool_decide (0 < ocr_pages m ∨ 1000 < chars m))
                         + Z.b2z (bool_decide (2 ≤ agents_run m))
                         + Z.b2z (bool_decide (5000 < chars m ∧ 4 ≤ agents_run m)))
                        = Some s)
                    ∧ (Z.b2z (bool_decide (0 < ocr_pages m ∨ 1000 < chars m))
                       + Z.b2z (bool_decide (2 ≤ agents_run m))
                       + Z.b2z (bool_decide (5000 < chars m ∧ 4 ≤ agents_run m)) = 3
                       ↔ 5000 < chars m ∧ agents_run m = 4)
                    ∧ (Z.b2z (bool_decide (0 < ocr_pages m ∨ 1000 < chars m))
                       + Z.b2z (bool_decide (2 ≤ agents_run m))
                       + Z.b2z (bool_decide (5000 < chars m ∧ 4 ≤ agents_run m)) = 0
                       ↔ ocr_pages m = 0 ∧ chars m ≤ 1000 ∧ agents_run m < 2)).
  { repeat case_bool_decide; simpl; (split; [by eexists|]); split; split; lia. }
  destruct Hlevels as (Hstatus & Hpro & Hstart).
  split; [done|]. split; [done|]. split; [done|].
  intros ->. destruct Hmode as [_ Hcount].
  rewrite Hpro, Hstart, Hcount. split; split; lia.
Qed.
